(** * The earnings-play pipeline: eligibility filter, calendar resolver, play analyzer

    A shallow embedding of [utils.py] and [earnings_scanner.py].

    Python values that cross the boundary with the external collaborators
    (scorer results, rule values, calendar cells) are kept as a small
    universe [PyVal] with Python's truth-value rule; exceptions carry their
    class and their [str()]; effectful functions run in a state-and-exception
    monad over the part of the outside world that they touch. *)

From Stdlib Require Import Ascii.
From stdpp Require Import base option list strings gmap pretty.

Local Open Scope string_scope.
Local Set Warnings "-register-all".

(** ** Python values *)

Inductive PyVal : Type :=
  | PNone
  | PBool (b : bool)
  | PInt (z : Z)
  | PStr (s : string)
  | PDict (d : gmap string PyVal).

(** Truth value testing: [None], [False], zero, the empty string and the
    empty dict are false, everything else is true. *)
Definition truthy (v : PyVal) : bool :=
  match v with
  | PNone => false
  | PBool b => b
  | PInt z => negb (Z.eqb z 0)
  | PStr s => negb (String.eqb s "")
  | PDict d => negb (Nat.eqb (size d) 0)
  end.

(** [x and y], [x or y] and [not x] on values, as Python evaluates them. *)
Definition py_and (x y : PyVal) : PyVal := if truthy x then y else x.
Definition py_or (x y : PyVal) : PyVal := if truthy x then x else y.
Definition py_not (x : PyVal) : PyVal := PBool (negb (truthy x)).

(** [isinstance(v, dict)] *)
Definition isinstance_dict (v : PyVal) : bool :=
  match v with PDict _ => true | _ => false end.

(** ** Exceptions *)

(** The exception classes that occur.  [KeyboardInterrupt] and [SystemExit]
    derive from [BaseException] only, so a handler [except Exception] lets
    them through; [RuntimeError] stands for any other subclass of
    [Exception] that a collaborator may raise. *)
Inductive ExnClass : Type :=
  | KeyError
  | ValueError
  | FileNotFoundError
  | PermissionError
  | RuntimeError
  | KeyboardInterrupt
  | SystemExit.

Record PyExn : Type := mkExn { exn_class : ExnClass; exn_str : string }.

(** [isinstance(e, Exception)] *)
Definition is_Exception (e : PyExn) : bool :=
  match exn_class e with
  | KeyboardInterrupt | SystemExit => false
  | _ => true
  end.

Definition is_ValueError (e : PyExn) : bool :=
  match exn_class e with ValueError => true | _ => false end.

(** What a call does: it returns a value or raises. *)
Inductive Result (A : Type) : Type :=
  | Return (a : A)
  | Raise (e : PyExn).
Arguments Return {A} a.
Arguments Raise {A} e.

(** ** The monad of effectful code: state passing with exceptions.
    The state survives a raise, as the outside world does. *)

Definition Eff (W A : Type) : Type := W → Result A * W.

Definition ret {W A} (a : A) : Eff W A := λ w, (Return a, w).

Definition raise {W A} (e : PyExn) : Eff W A := λ w, (Raise e, w).

Definition bind {W A B} (m : Eff W A) (k : A → Eff W B) : Eff W B :=
  λ w, match m w with
       | (Return a, w') => k a w'
       | (Raise e, w') => (Raise e, w')
       end.

Declare Scope eff_scope.
Delimit Scope eff_scope with eff.
Bind Scope eff_scope with Eff.
Notation "'let!' x ':=' m 'in' k" := (bind m (λ x, k))
  (at level 10, x name, m at level 100, k at level 200) : eff_scope.
Notation "'do!' m 'in' k" := (bind m (λ _, k))
  (at level 10, m at level 100, k at level 200) : eff_scope.
Local Open Scope eff_scope.

(** [try: body except <class> as e: handler e] where [catches] decides
    whether the raised exception is an instance of the named class. *)
Definition try_except {W A} (body : Eff W A) (catches : PyExn → bool)
    (handler : PyExn → Eff W A) : Eff W A :=
  λ w, match body w with
       | (Return a, w') => (Return a, w')
       | (Raise e, w') => if catches e then handler e w' else (Raise e, w')
       end.

Definition modify {W} (f : W → W) : Eff W unit := λ w, (Return tt, f w).

(** [for x in xs: body], where the body updates the loop's local
    variables [acc]; the loop stops at the first exception that leaves the
    body. *)
Fixpoint for_each {W A X} (body : A → X → Eff W A) (xs : list X) (acc : A)
    : Eff W A :=
  match xs with
  | [] => ret acc
  | x :: xs' => let! acc' := body acc x in for_each body xs' acc'
  end.

(** [enumerate(xs, start)] *)
Definition enumerate {X} (xs : list X) (start : nat) : list (nat * X) :=
  zip (seq start (length xs)) xs.

(** ** Entries *)

(** An earnings entry, the dict [{'symbol': ..., 'time': ...}]; the
    resolver, which makes the entries, sets both keys. *)
Record Entry : Type := mkEntry { symbol : string; time : PyVal }.

(** ** Text: whitespace, [str.strip] and [readlines]

    A character is a code point below 256. *)

Definition LF : Ascii.ascii := "010"%char.
Definition CR : Ascii.ascii := "013"%char.
Definition nl : string := String LF "".

(** [str.isspace] on one character: tab, line feed, vertical tab, form
    feed, carriage return, the four separators 0x1c-0x1f, space, next line
    (0x85) and no-break space (0xa0). *)
Definition isspace (c : Ascii.ascii) : bool :=
  let n := Ascii.nat_of_ascii c in
  (Nat.leb 9 n && Nat.leb n 13) || (Nat.leb 28 n && Nat.leb n 32)
  || Nat.eqb n 133 || Nat.eqb n 160.

Fixpoint lstrip (s : string) : string :=
  match s with
  | "" => ""
  | String c s' => if isspace c then lstrip s' else s
  end.

Fixpoint rstrip (s : string) : string :=
  match s with
  | "" => ""
  | String c s' =>
      match rstrip s' with
      | "" => if isspace c then "" else String c ""
      | r => String c r
      end
  end.

(** [s.strip()] *)
Definition strip (s : string) : string := rstrip (lstrip s).

(** Text mode with universal newlines: on reading, [\r\n] and a lone [\r]
    arrive as [\n]. *)
Fixpoint translate_newlines (s : string) : string :=
  match s with
  | "" => ""
  | String c s' =>
      if Ascii.eqb c CR then
        match s' with
        | String c' _ =>
            if Ascii.eqb c' LF then translate_newlines s'
            else String LF (translate_newlines s')
        | "" => String LF ""
        end
      else String c (translate_newlines s')
  end.

(** Splitting into lines, each one keeping its [\n]; a last line without
    one is kept as it is. *)
Fixpoint split_keepends (s : string) : list string :=
  match s with
  | "" => []
  | String c s' =>
      if Ascii.eqb c LF then nl :: split_keepends s'
      else match split_keepends s' with
           | [] => [String c ""]
           | l :: ls => String c l :: ls
           end
  end.

(** [f.readlines()] on a file whose content is [content]. *)
Definition readlines (content : string) : list string :=
  split_keepends (translate_newlines content).

(** What "a line with its leading and trailing whitespace removed" says,
    without reference to [strip]: [core] neither starts nor ends with
    whitespace, and [line] is [core] between two runs of whitespace. *)
Fixpoint all_space (s : string) : bool :=
  match s with
  | "" => true
  | String c s' => isspace c && all_space s'
  end.

Definition head_char (s : string) : option Ascii.ascii :=
  match s with
  | "" => None
  | String c _ => Some c
  end.

Fixpoint last_char (s : string) : option Ascii.ascii :=
  match s with
  | "" => None
  | String c s' =>
      match s' with
      | "" => Some c
      | String _ _ => last_char s'
      end
  end.

Definition space_at (c : option Ascii.ascii) : bool :=
  match c with
  | Some c => isspace c
  | None => false
  end.

Definition trimmed (s : string) : Prop :=
  space_at (head_char s) = false ∧ space_at (last_char s) = false.

Definition padded (line core : string) : Prop :=
  ∃ pre post, line = pre ++ core ++ post
              ∧ all_space pre = true ∧ all_space post = true
              ∧ trimmed core.

(** [c in s] for a character. *)
Fixpoint has_char (c : Ascii.ascii) (s : string) : bool :=
  match s with
  | "" => false
  | String c' s' => Ascii.eqb c' c || has_char c s'
  end.

(** * utils.py *)

Module utils.

(** A path names nothing, a file that cannot be read, or a readable file. *)
Inductive FileNode : Type :=
  | Readable (content : string)
  | Unreadable.

(** The file system as the filter sees it, with the log of the paths that
    [open] was called on (oldest first). *)
Record FileSystem : Type := mkFS {
  files : gmap string FileNode;
  open_log : list string
}.

Definition log_open (path : string) (fs : FileSystem) : FileSystem :=
  {| files := files fs; open_log := open_log fs ++ [path] |}.

(** [open(path, 'r')] followed by reading the whole file. *)
Definition open_read (path : string) : Eff FileSystem string :=
  do! modify (log_open path) in
  λ fs, match files fs !! path with
        | None =>
            raise (mkExn FileNotFoundError
              ("[Errno 2] No such file or directory: '" ++ path ++ "'")) fs
        | Some Unreadable =>
            raise (mkExn PermissionError
              ("[Errno 13] Permission denied: '" ++ path ++ "'")) fs
        | Some (Readable content) => ret content fs
        end.

Definition static_stocks_txt : string := "static_stocks.txt".

(** [[
def get_static_stocks():
    with open('static_stocks.txt', 'r') as f:
        return [line.strip() for line in f.readlines()]
]] *)
Definition get_static_stocks : Eff FileSystem (list string) :=
  let! content := open_read static_stocks_txt in
  ret (strip <$> readlines content).

(** [rules.get(key)]: the value, or [None] when the key is absent. *)
Definition dict_get (d : gmap string PyVal) (key : string) : PyVal :=
  default PNone (d !! key).

(** [symbol in static_stocks] *)
Definition py_in (x : string) (l : list string) : bool :=
  bool_decide (x ∈ l).

(** [[
def filter_stocks(tickers, rules=None):
    if rules is None:
        rules = {}
    static_stocks = []
    if rules.get('use_static_list'):
        static_stocks = get_static_stocks()
    filtered_tickers = []
    for ticker_info in tickers:
        symbol = ticker_info['symbol']
        include_ticker = True
        if rules.get('use_static_list') and symbol not in static_stocks:
            include_ticker = False
        if include_ticker:
            filtered_tickers.append(ticker_info)
    return filtered_tickers
]] *)
Definition filter_loop_body (rules : gmap string PyVal)
    (static_stocks : list string) (filtered_tickers : list Entry)
    (ticker_info : Entry) : list Entry :=
  let symbol := symbol ticker_info in
  let include_ticker := true in
  let include_ticker :=
    if truthy (dict_get rules "use_static_list")
       && negb (py_in symbol static_stocks)
    then false else include_ticker in
  if include_ticker then filtered_tickers ++ [ticker_info]
  else filtered_tickers.

Definition filter_stocks (tickers : list Entry)
    (rules : option (gmap string PyVal)) : Eff FileSystem (list Entry) :=
  let rules := match rules with None => ∅ | Some r => r end in
  let static_stocks := [] in
  let! static_stocks :=
    (if truthy (dict_get rules "use_static_list")
     then get_static_stocks
     else ret static_stocks) in
  let filtered_tickers := [] in
  ret (foldl (filter_loop_body rules static_stocks) filtered_tickers tickers).

End utils.

(** * earnings_scanner.py *)

Module earnings_scanner.

(** The table that the calendar source returns: column labels, and one row
    per index label (the symbol), each row a series from column label to
    cell. *)
Record DataFrame : Type := mkDF {
  df_columns : list string;
  df_rows : list (string * gmap string PyVal)
}.

(** [df.empty]: some axis has length zero. *)
Definition df_empty (df : DataFrame) : bool :=
  Nat.eqb (length (df_rows df)) 0 || Nat.eqb (length (df_columns df)) 0.

(** [row.get(key, default)] on a series. *)
Definition series_get (row : gmap string PyVal) (key : string)
    (dflt : PyVal) : PyVal :=
  default dflt (row !! key).

(** The dict that the analyzer builds for a scored entry. *)
Record CategorizedEntry : Type := mkCategorized {
  ce_symbol : string;
  ce_time : PyVal;
  ce_expected_move : PyVal;
  ce_recommendation : string
}.

(** The four lists that the analyzer fills and returns. *)
Record RunResult : Type := mkRun {
  recommended : list CategorizedEntry;
  consider : list CategorizedEntry;
  avoid : list CategorizedEntry;
  errors : list (string * string)
}.

Definition no_results : RunResult := mkRun [] [] [] [].

Definition append_recommended (x : CategorizedEntry) (r : RunResult) :=
  mkRun (recommended r ++ [x]) (consider r) (avoid r) (errors r).
Definition append_consider (x : CategorizedEntry) (r : RunResult) :=
  mkRun (recommended r) (consider r ++ [x]) (avoid r) (errors r).
Definition append_avoid (x : CategorizedEntry) (r : RunResult) :=
  mkRun (recommended r) (consider r) (avoid r ++ [x]) (errors r).
Definition append_error (x : string * string) (r : RunResult) :=
  mkRun (recommended r) (consider r) (avoid r) (errors r ++ [x]).

(** [[
recommendation = "Recommended" if (avg_volume_bool and iv30_rv30_bool and ts_slope_bool) else \
    "Consider" if (ts_slope_bool and ((avg_volume_bool and not iv30_rv30_bool)
                   or (iv30_rv30_bool and not avg_volume_bool))) else "Avoid"
]] *)
Definition recommendation_of
    (avg_volume_bool iv30_rv30_bool ts_slope_bool : PyVal) : string :=
  if truthy (py_and (py_and avg_volume_bool iv30_rv30_bool) ts_slope_bool)
  then "Recommended"
  else if truthy
       (py_and ts_slope_bool
          (py_or (py_and avg_volume_bool (py_not iv30_rv30_bool))
                 (py_and iv30_rv30_bool (py_not avg_volume_bool))))
  then "Consider"
  else "Avoid".

(** [[
if recommendation == "Recommended":
    recommended.append(ticker_info)
elif recommendation == "Consider":
    consider.append(ticker_info)
else:
    avoid.append(ticker_info)
]] *)
Definition place (ticker_info : CategorizedEntry) (r : RunResult)
    : RunResult :=
  if String.eqb (ce_recommendation ticker_info) "Recommended"
  then append_recommended ticker_info r
  else if String.eqb (ce_recommendation ticker_info) "Consider"
  then append_consider ticker_info r
  else append_avoid ticker_info r.

Section Collaborators.

(** The collaborators that the scanner consumes: the date library, the
    calendar source and the scorer.  The two services are stateful: a
    call returns or raises, and moves the service to a new state. *)
Context {Date ScorerState CalendarState : Type}.
(** [datetime.datetime.strptime(s, "%Y-%m-%d").date()] *)
Variable strptime_Ymd : string → Result Date.
(** [date.strftime('%b %d %Y')] *)
Variable strftime_bdY : Date → string.
(** [calculator.compute_recommendation] *)
Variable compute_recommendation :
  string → ScorerState → Result PyVal * ScorerState.
(** [finance_calendars.get_earnings_by_date] *)
Variable get_earnings_by_date :
  Date → CalendarState → Result DataFrame * CalendarState.

(** The outside world of a run: the two services with the log of the
    calls made to each (oldest first), the seconds slept, the clock and
    the chunks written to standard output. *)
Record World : Type := mkWorld {
  scorer_state : ScorerState;
  scorer_calls : list string;
  slept : nat;
  calendar_state : CalendarState;
  calendar_queries : list Date;
  today : Date;
  stdout : list string
}.

(** [print(text, end=end_)] *)
Definition print_end (text end_ : string) : Eff World unit :=
  modify (λ w, mkWorld (scorer_state w) (scorer_calls w) (slept w)
                 (calendar_state w) (calendar_queries w) (today w)
                 (stdout w ++ [text ++ end_])).

(** [print(text)] *)
Definition print (text : string) : Eff World unit := print_end text nl.

(** [time.sleep(seconds)] *)
Definition sleep (seconds : nat) : Eff World unit :=
  modify (λ w, mkWorld (scorer_state w) (scorer_calls w)
                 (slept w + seconds) (calendar_state w)
                 (calendar_queries w) (today w) (stdout w)).

(** [datetime.date.today()] *)
Definition date_today : Eff World Date := λ w, (Return (today w), w).

(** The call [compute_recommendation(symbol)], logged. *)
Definition call_scorer (symbol : string) : Eff World PyVal :=
  λ w, let (outcome, s') := compute_recommendation symbol (scorer_state w) in
       (outcome,
        mkWorld s' (scorer_calls w ++ [symbol]) (slept w)
          (calendar_state w) (calendar_queries w) (today w) (stdout w)).

(** The call [finance_calendars.get_earnings_by_date(date)], logged. *)
Definition query_calendar (date : Date) : Eff World DataFrame :=
  λ w, let (outcome, c') := get_earnings_by_date date (calendar_state w) in
       (outcome,
        mkWorld (scorer_state w) (scorer_calls w) (slept w) c'
          (calendar_queries w ++ [date]) (today w) (stdout w)).

(** [d[key]] on a dict: [KeyError(key)] when the key is absent; the
    [str()] of that exception is the [repr] of the key. *)
Definition subscript (d : gmap string PyVal) (key : string)
    : Eff World PyVal :=
  match d !! key with
  | Some v => ret v
  | None => raise (mkExn KeyError ("'" ++ key ++ "'"))
  end.

(** [[
tickers = []
for symbol, row in earnings_df.iterrows():
  time = row.get('time', 'time-not-supplied')
  tickers.append({'symbol': symbol, 'time': time})
]] *)
Definition rows_to_tickers (earnings_df : DataFrame) : list Entry :=
  foldl (λ (tickers : list Entry) '(symbol, row),
           let time := series_get row "time" (PStr "time-not-supplied") in
           (tickers ++ [mkEntry symbol time])%list)
        [] (df_rows earnings_df).

(** The body of the second [try] of [get_earnings_for_date] (source
    lines 29-68).  [date_from] and [date_to] are computed there and never
    used. *)
Definition fetch_earnings (date : Date) (date_display : string)
    : Eff World (list Entry) :=
  let! earnings_df := query_calendar date in
  do! print ("Fetching earnings for " ++ date_display ++ "...") in
  if df_empty earnings_df then
    do! print (nl ++ "No earnings data found for " ++ date_display) in
    do! print "This could be because:" in
    do! print "1. The market is closed on this date" in
    do! print "2. Earnings data isn't yet available" in
    do! print "3. The date is too far in future" in
    ret []
  else
    let tickers := rows_to_tickers earnings_df in
    if negb (Nat.eqb (length tickers) 0) then
      do! print ("Successfully found " ++ pretty (length tickers)
                 ++ " earnings reports for " ++ date_display) in
      ret tickers
    else
      do! print (nl ++ "No earnings data found for " ++ date_display) in
      do! print "Possible reasons:" in
      do! print "1. Market closed on this date" in
      do! print "2. Earnings data unavailable" in
      do! print "3. Date too far in future" in
      ret [].

(** The text printed for a date string that does not parse. *)
Definition invalid_date_message : string :=
  "Error: Invalid date format. Please use YYYY-MM-DD "
  ++ "or Month Day Year (e.g., 'Jul 24 2025')".

(** [get_earnings_for_date(date_str=None)].  The first [if]/[try]
    (source lines 16-27) yields the date and its display form, or [None]
    where the source returns [[]] from the [except ValueError] clause. *)
Definition resolve_date (date_str : option string)
    : Eff World (option (Date * string)) :=
  match date_str with
  | None =>
      let! date := date_today in
      let date_display := strftime_bdY date in
      ret (Some (date, date_display))
  | Some date_str =>
      try_except
        (let! date := (λ w, (strptime_Ymd date_str, w)) in
         let date_display := strftime_bdY date in
         ret (Some (date, date_display)))
        is_ValueError
        (λ _,
         do! print invalid_date_message in
         ret None)
  end.

Definition get_earnings_for_date (date_str : option string)
    : Eff World (list Entry) :=
  let! resolved := resolve_date date_str in
  match resolved with
  | None => ret []
  | Some (date, date_display) =>
      try_except (fetch_earnings date date_display) is_Exception
        (λ e,
         do! print (nl ++ "Error fetching earnings data: " ++ exn_str e) in
         ret [])
  end.

(** The [try] block of the analyzer's loop (source lines 89-114).  The
    block appends to a bucket as its last action, so when the handler
    runs the four lists are as they were when the block was entered. *)
Definition score_and_place (symbol : string) (ticker_info : Entry)
    (lists : RunResult) : Eff World RunResult :=
  let! result := call_scorer symbol in
  do! sleep 1 in
  match result with
  | PDict result =>
      let! avg_volume_bool := subscript result "avg_volume" in
      let! iv30_rv30_bool := subscript result "iv30_rv30" in
      let! ts_slope_bool := subscript result "ts_slope_0_45" in
      let! expected_move := subscript result "expected_move" in
      let recommendation :=
        recommendation_of avg_volume_bool iv30_rv30_bool ts_slope_bool in
      let ticker_info :=
        mkCategorized symbol (time ticker_info) expected_move
          recommendation in
      ret (place ticker_info lists)
  | _ => ret lists
  end.

(** One iteration of [for idx, ticker_info in enumerate(tickers, 1)]. *)
Definition analyze_step (total : nat) (lists : RunResult)
    (item : nat * Entry) : Eff World RunResult :=
  let '(idx, ticker_info) := item in
  let symbol := symbol ticker_info in
  do! print_end (String CR "Analyzing " ++ symbol ++ " (" ++ pretty idx
                 ++ "/" ++ pretty total ++ ")...") "" in
  try_except (score_and_place symbol ticker_info lists) is_Exception
    (λ e, ret (append_error (symbol, exn_str e) lists)).

(** [analyze_earnings_plays(tickers)] *)
Definition analyze_earnings_plays (tickers : list Entry)
    : Eff World RunResult :=
  let total := length tickers in
  let! lists := for_each (analyze_step total) (enumerate tickers 1)
                  no_results in
  do! print nl in
  ret lists.

(** The outcomes of the scorer when it is called on [symbols] in turn,
    starting in state [s]. *)
Fixpoint scorer_outcomes (symbols : list string) (s : ScorerState)
    : list (Result PyVal) :=
  match symbols with
  | [] => []
  | x :: rest =>
      let (outcome, s') := compute_recommendation x s in
      outcome :: scorer_outcomes rest s'
  end.

(** The symbols passed to the scorer while [tickers] are analyzed from
    world [w]: what the run adds to the log of calls. *)
Definition calls_during (tickers : list Entry) (w : World) : list string :=
  drop (length (scorer_calls w))
       (scorer_calls (analyze_earnings_plays tickers w).2).

End Collaborators.

Arguments World : clear implicits.

(** ** What one scorer outcome does to the four lists

    [settle] is the loop body of the analyzer read as a function of the
    outcome of its scorer call; the analyzer is proved to compute it. *)

Definition key_error_str (key : string) : string := "'" ++ key ++ "'".

Definition settle (ticker_info : Entry) (outcome : Result PyVal)
    (lists : RunResult) : Result RunResult :=
  let fail e :=
    if is_Exception e
    then Return (append_error (symbol ticker_info, exn_str e) lists)
    else Raise e in
  match outcome with
  | Raise e => fail e
  | Return (PDict d) =>
      match d !! "avg_volume" with
      | None => fail (mkExn KeyError (key_error_str "avg_volume"))
      | Some a =>
      match d !! "iv30_rv30" with
      | None => fail (mkExn KeyError (key_error_str "iv30_rv30"))
      | Some b =>
      match d !! "ts_slope_0_45" with
      | None => fail (mkExn KeyError (key_error_str "ts_slope_0_45"))
      | Some c =>
      match d !! "expected_move" with
      | None => fail (mkExn KeyError (key_error_str "expected_move"))
      | Some e =>
          Return (place (mkCategorized (symbol ticker_info)
                           (time ticker_info) e (recommendation_of a b c))
                    lists)
      end end end end
  | Return _ => Return lists
  end.

Fixpoint settle_all (scored : list (Entry * Result PyVal))
    (lists : RunResult) : Result RunResult :=
  match scored with
  | [] => Return lists
  | (t, o) :: rest =>
      match settle t o lists with
      | Return lists' => settle_all rest lists'
      | Raise e => Raise e
      end
  end.

(** Concatenation of two runs' lists. *)
Definition merge (r1 r2 : RunResult) : RunResult :=
  mkRun (recommended r1 ++ recommended r2) (consider r1 ++ consider r2)
        (avoid r1 ++ avoid r2) (errors r1 ++ errors r2).

(** Case analysis on the next dict lookup of the goal: the key is there
    or it is not. *)
Ltac case_lookup :=
  match goal with
  | |- context [@lookup string PyVal _ _ ?k ?d] => destruct (d !! k) eqn:?
  end.

(** ** The words of the specification *)

(** A signals record: the dict with the three signals and the expected
    move. *)
Definition signals_dict (avg_volume iv30_rv30 ts_slope_0_45 : bool)
    (expected_move : PyVal) : gmap string PyVal :=
  <["avg_volume" := PBool avg_volume]>
    (<["iv30_rv30" := PBool iv30_rv30]>
       (<["ts_slope_0_45" := PBool ts_slope_0_45]>
          (<["expected_move" := expected_move]> ∅))).

Definition signals (avg_volume iv30_rv30 ts_slope_0_45 : bool)
    (expected_move : PyVal) : PyVal :=
  PDict (signals_dict avg_volume iv30_rv30 ts_slope_0_45 expected_move).

(** A well-formed signals record: a dict that holds the three signals as
    booleans and the expected move as a string. *)
Definition well_formed (v : PyVal) : bool :=
  match v with
  | PDict d =>
      match d !! "avg_volume", d !! "iv30_rv30", d !! "ts_slope_0_45",
            d !! "expected_move" with
      | Some (PBool _), Some (PBool _), Some (PBool _), Some (PStr _) => true
      | _, _, _, _ => false
      end
  | _ => false
  end.

(** The outcomes that the partition property speaks of: the call returns a
    well-formed record, or raises a failure (an [Exception]). *)
Definition conforming (o : Result PyVal) : bool :=
  match o with
  | Return v => well_formed v
  | Raise e => is_Exception e
  end.

(** A successfully scored entry, as the dict that the analyzer makes of
    it: the call returned a dict holding the four fields. *)
Definition scored_entry (p : Entry * Result PyVal)
    : option CategorizedEntry :=
  match p with
  | (t, Return (PDict d)) =>
      match d !! "avg_volume", d !! "iv30_rv30", d !! "ts_slope_0_45",
            d !! "expected_move" with
      | Some a, Some b, Some c, Some e =>
          Some (mkCategorized (symbol t) (time t) e (recommendation_of a b c))
      | _, _, _, _ => None
      end
  | _ => None
  end.

(** An entry whose scoring raised, as its error record. *)
Definition failed_entry (p : Entry * Result PyVal)
    : option (string * string) :=
  match p with
  | (t, Raise e) => Some (symbol t, exn_str e)
  | _ => None
  end.

Definition labelled (label : string) (x : CategorizedEntry) : Prop :=
  ce_recommendation x = label.

#[global] Instance labelled_dec label x : Decision (labelled label x).
Proof. unfold labelled. apply _. Defined.

End earnings_scanner.

(** * earnings_scanner.py, continued: the report and the command *)

Module pipeline.

Import utils earnings_scanner.

(** [s * n] on a string. *)
Fixpoint str_mul (s : string) (n : nat) : string :=
  match n with
  | 0 => ""
  | S n' => s ++ str_mul s n'
  end.

(** The machine that the command runs on: the world of the scanner and
    the file system of the filter. *)
Record Machine (World : Type) : Type := mkMachine {
  m_world : World;
  m_disk : FileSystem
}.
Arguments mkMachine {World} _ _.
Arguments m_world {World} _.
Arguments m_disk {World} _.

(** Code of the scanner, run on the machine. *)
Definition on_world {World A} (m : Eff World A) : Eff (Machine World) A :=
  λ M, let (res, w') := m (m_world M) in (res, mkMachine w' (m_disk M)).

(** Code of [utils], run on the machine. *)
Definition on_disk {World A} (m : Eff FileSystem A) : Eff (Machine World) A :=
  λ M, let (res, fs') := m (m_disk M) in (res, mkMachine (m_world M) fs').

(** The keys that the analyzer reads from a scorer result, in the order
    in which it reads them. *)
Definition required_keys : list string :=
  ["avg_volume"; "iv30_rv30"; "ts_slope_0_45"; "expected_move"].

(** The seconds slept after a scorer call: one when the call returned,
    none when it raised. *)
Definition sleep_after (o : Result PyVal) : nat :=
  match o with
  | Return _ => 1
  | Raise _ => 0
  end.

(** An outcome that stops the run: a raise that [except Exception] lets
    through. *)
Definition stops_run (o : Result PyVal) : bool :=
  match o with
  | Return _ => false
  | Raise e => negb (is_Exception e)
  end.

(** The number of items that an outcome adds to the four lists: none for
    a returned value that is not a dict, one otherwise. *)
Definition lists_gain (o : Result PyVal) : nat :=
  match o with
  | Return v => if isinstance_dict v then 1 else 0
  | Raise _ => 1
  end.

(** A bucket item read back as the entry it was made of. *)
Definition entry_of (x : CategorizedEntry) : Entry :=
  mkEntry (ce_symbol x) (ce_time x).

(** The number of items in the four lists. *)
Definition total_items (r : RunResult) : nat :=
  length (recommended r) + length (consider r) + length (avoid r)
  + length (errors r).

(** The chunk written before entry number [idx] of [total] is scored. *)
Definition progress_chunk (total idx : nat) (t : Entry) : string :=
  (String CR "Analyzing " ++ symbol t ++ " (" ++ pretty idx ++ "/"
   ++ pretty total ++ ")...") ++ "".

(** The entry that the resolver makes of one row of the table. *)
Definition row_entry (r : string * gmap string PyVal) : Entry :=
  mkEntry r.1 (series_get r.2 "time" (PStr "time-not-supplied")).

(** The number of chunks that the report writes for one bucket and for
    the error list. *)
Definition bucket_chunks (bucket : list CategorizedEntry) : nat :=
  match bucket with
  | [] => 1
  | _ => 3 * length bucket
  end.

Definition error_chunks (errors : list (string * string)) : nat :=
  match errors with
  | [] => 0
  | _ => 2 + length errors
  end.

(** The heading lines of the report, as they reach standard output. *)
Definition report_head : list string :=
  [(nl ++ "Earnings Analysis Results") ++ nl;
   str_mul "=" 50 ++ nl;
   (nl ++ "RECOMMENDED PLAYS:") ++ nl;
   str_mul "-" 50 ++ nl].

Definition consider_head : list string :=
  [(nl ++ "CONSIDER PLAYS:") ++ nl; str_mul "-" 50 ++ nl].

Definition errors_head : list string :=
  [(nl ++ "Errors encountered:") ++ nl; str_mul "-" 50 ++ nl].

Definition none_line : string := "None" ++ nl.

Section Collaborators.

Context {Date ScorerState CalendarState : Type}.
Variable strptime_Ymd : string → Result Date.
Variable strftime_bdY : Date → string.
Variable compute_recommendation :
  string → ScorerState → Result PyVal * ScorerState.
Variable get_earnings_by_date :
  Date → CalendarState → Result DataFrame * CalendarState.
(** The text that an f-string puts for a value, [format(v, '')]. *)
Variable py_format : PyVal → string.

Local Abbreviation World := (World Date ScorerState CalendarState).

(** The date that [get_earnings_for_date] settles on: today when no
    string is given, the parsed date when the string parses. *)
Definition resolved_date (date_str : option string) (w : World)
    : option Date :=
  match date_str with
  | None => Some (today w)
  | Some s =>
      match strptime_Ymd s with
      | Return d => Some d
      | Raise _ => None
      end
  end.

(** The state of the scorer after it was called on [symbols] in turn. *)
Fixpoint scorer_state_after (symbols : list string) (s : ScorerState)
    : ScorerState :=
  match symbols with
  | [] => s
  | x :: rest => scorer_state_after rest (compute_recommendation x s).2
  end.

(** The world after [out] was written to standard output. *)
Definition write (out : list string) (w : World) : World :=
  mkWorld (scorer_state w) (scorer_calls w) (slept w) (calendar_state w)
    (calendar_queries w) (today w) (stdout w ++ out).

(** [[
if not bucket:
    print("None")
for ticker_info in bucket:
    print(f"\nSymbol: {ticker_info['symbol']} | Time: {ticker_info['time']}")
    print(f"Expected Move: {ticker_info['expected_move']}")
    print(f"Recommendation: {ticker_info['recommendation']}")
]]
    The source has this text twice, for [recommended] and for
    [consider]. *)
Definition print_plays (bucket : list CategorizedEntry) : Eff World unit :=
  do! (match bucket with
       | [] => print "None"
       | _ => ret tt
       end) in
  for_each
    (λ _ ticker_info,
       do! print (nl ++ "Symbol: " ++ ce_symbol ticker_info ++ " | Time: "
                  ++ py_format (ce_time ticker_info)) in
       do! print ("Expected Move: "
                  ++ py_format (ce_expected_move ticker_info)) in
       print ("Recommendation: " ++ ce_recommendation ticker_info))
    bucket tt.

(** [print_results(recommended, consider, errors)] *)
Definition print_results (recommended consider : list CategorizedEntry)
    (errors : list (string * string)) : Eff World unit :=
  do! print (nl ++ "Earnings Analysis Results") in
  do! print (str_mul "=" 50) in
  do! print (nl ++ "RECOMMENDED PLAYS:") in
  do! print (str_mul "-" 50) in
  do! print_plays recommended in
  do! print (nl ++ "CONSIDER PLAYS:") in
  do! print (str_mul "-" 50) in
  do! print_plays consider in
  match errors with
  | [] => ret tt
  | _ =>
      do! print (nl ++ "Errors encountered:") in
      do! print (str_mul "-" 50) in
      for_each (λ _ '(symbol, error), print (symbol ++ ": " ++ error))
        errors tt
  end.

(** [main()], from the parsed arguments on: [date] is [args.date]. *)
Definition main (date : option string) : Eff (Machine World) unit :=
  let! earnings_tickers :=
    on_world (get_earnings_for_date strptime_Ymd strftime_bdY
                get_earnings_by_date date) in
  match earnings_tickers with
  | [] => ret tt
  | _ =>
      do! on_world (print (nl ++ "Found " ++ pretty (length earnings_tickers)
                           ++ " stocks with earnings before filter")) in
      let! earnings_tickers :=
        on_disk (filter_stocks earnings_tickers
                   (Some {[ "use_static_list" := PBool true ]})) in
      do! on_world (print (nl ++ "Found " ++ pretty (length earnings_tickers)
                           ++ " stocks with earnings")) in
      let! lists :=
        on_world (analyze_earnings_plays compute_recommendation
                    earnings_tickers) in
      let recommended := recommended lists in
      let consider := consider lists in
      let avoid := avoid lists in
      let errors := errors lists in
      let all_relevant := (recommended ++ consider)%list in
      on_world (print_results recommended consider errors)
  end.

End Collaborators.

(** Running the code of the resolver on a world given by its fields. *)
Ltac run_world :=
  cbv [fetch_earnings try_except bind query_calendar print print_end modify
       ret scorer_state scorer_calls slept calendar_state calendar_queries
       today stdout fst snd].

End pipeline.

(** * Sample data: a calendar date library, a scorer, a calendar source and
    file systems on which the functions can be run. *)

Module samples.

Import utils earnings_scanner.

Record CalendarDate : Type := mkDate { year : nat; month : nat; day : nat }.

Definition digit (c : Ascii.ascii) : option nat :=
  let n := nat_of_ascii c in
  if Nat.leb 48 n && Nat.leb n 57 then Some (n - 48) else None.

(** The value of a string of decimal digits. *)
Fixpoint digits_value (s : string) (acc : nat) : option nat :=
  match s with
  | "" => Some acc
  | String c s' =>
      match digit c with
      | Some d => digits_value s' (10 * acc + d)
      | None => None
      end
  end.

(** [s.split(sep)] for a one-character separator. *)
Fixpoint split_on (sep : Ascii.ascii) (s : string) : list string :=
  match s with
  | "" => [""]
  | String c s' =>
      if Ascii.eqb c sep then "" :: split_on sep s'
      else match split_on sep s' with
           | [] => [String c ""]
           | f :: fs => String c f :: fs
           end
  end.

Definition leap_year (y : nat) : bool :=
  (Nat.eqb (y mod 4) 0 && negb (Nat.eqb (y mod 100) 0))
  || Nat.eqb (y mod 400) 0.

Definition days_in_month (y m : nat) : nat :=
  match m with
  | 2 => if leap_year y then 29 else 28
  | 4 | 6 | 9 | 11 => 30
  | _ => 31
  end.

(** A field of one or two digits (for the day, also a space and one
    digit) whose value lies in [1..hi]. *)
Definition numeric_field (allow_space : bool) (hi : nat) (f : string)
    : option nat :=
  let f := match f with
           | String " " f' =>
               if allow_space && Nat.eqb (String.length f') 1 then f' else f
           | _ => f
           end in
  if Nat.leb 1 (String.length f) && Nat.leb (String.length f) 2 then
    match digits_value f 0 with
    | Some n => if Nat.leb 1 n && Nat.leb n hi then Some n else None
    | None => None
    end
  else None.

(** [datetime.datetime.strptime(s, "%Y-%m-%d").date()]: four digits, a
    month and a day of the calendar; [ValueError] otherwise. *)
Definition strptime_Ymd (s : string) : Result CalendarDate :=
  let bad :=
    Raise (mkExn ValueError
             ("time data '" ++ s ++ "' does not match format '%Y-%m-%d'")) in
  match split_on "-" s with
  | [y; m; d] =>
      if Nat.eqb (String.length y) 4 then
        match digits_value y 0, numeric_field false 12 m,
              numeric_field true 31 d with
        | Some y, Some m, Some d =>
            if Nat.eqb y 0 then
              Raise (mkExn ValueError "year 0 is out of range")
            else if Nat.leb d (days_in_month y m) then Return (mkDate y m d)
            else Raise (mkExn ValueError "day is out of range for month")
        | _, _, _ => bad
        end
      else bad
  | _ => bad
  end.

Definition month_abbr (m : nat) : string :=
  nth (m - 1)
    ["Jan"; "Feb"; "Mar"; "Apr"; "May"; "Jun"; "Jul"; "Aug"; "Sep"; "Oct";
     "Nov"; "Dec"] "".

(** [date.strftime('%b %d %Y')] *)
Definition strftime_bdY (d : CalendarDate) : string :=
  month_abbr (month d) ++ " "
  ++ (if Nat.ltb (day d) 10 then "0" else "") ++ pretty (day d) ++ " "
  ++ pretty (year d).

(** A scorer whose state counts the calls made to it. *)
Definition scorer (symbol : string) (calls : nat) : Result PyVal * nat :=
  (if String.eqb symbol "AAPL" then Return (signals true true true (PStr "5.2%"))
   else if String.eqb symbol "MSFT" then Return (signals true false true (PStr "3.1%"))
   else if String.eqb symbol "TSLA" then Return (signals true true false (PStr "9.8%"))
   else if String.eqb symbol "NOOPT" then Return (PStr "No options found.")
   else if String.eqb symbol "EMPTY" then Return (PDict ∅)
   else Raise (mkExn RuntimeError ("no price data for " ++ symbol)),
   S calls).

(** A calendar source that knows one day. *)
Definition calendar (d : CalendarDate) (queries : nat)
    : Result DataFrame * nat :=
  (if Nat.eqb (year d) 2025 && Nat.eqb (month d) 7 && Nat.eqb (day d) 24
   then Return (mkDF ["time"]
                  [("AAPL", {["time" := PStr "time-after-hours"]});
                   ("XYZ", ∅)])
   else Return (mkDF [] []),
   S queries).

Definition world0 : World CalendarDate nat nat :=
  mkWorld 0 [] 0 0 [] (mkDate 2025 7 24) [].

Definition entry (symbol : string) : Entry :=
  mkEntry symbol (PStr "time-after-hours").

(** An allow-list file with padded lines, a blank line and a last line
    without a line end. *)
Definition allow_list_text : string :=
  "AAPL" ++ nl ++ "  MSFT " ++ String CR nl ++ nl ++ "TSLA".

Definition disk : FileSystem :=
  mkFS {[ static_stocks_txt := Readable allow_list_text ]} [].

Definition empty_disk : FileSystem := mkFS ∅ [].

Definition locked_disk : FileSystem :=
  mkFS {[ static_stocks_txt := Unreadable ]} [].

Definition static_list_on : gmap string PyVal :=
  {[ "use_static_list" := PBool true ]}.

Definition static_list_off : gmap string PyVal :=
  {[ "use_static_list" := PBool false ]}.

(** Candidates: two on the list, and four that are not (unknown, lower
    case, the empty symbol that only a blank line admits, a proper prefix
    of a listed symbol). *)
Definition candidates : list Entry :=
  [entry "AAPL"; entry "XYZ"; entry "aapl"; entry "MSFT"; entry "";
   entry "AAP"].

Definition scored (symbol move : string) (label : string)
    : CategorizedEntry :=
  mkCategorized symbol (PStr "time-after-hours") (PStr move) label.

Definition no_price_data : PyExn :=
  mkExn RuntimeError "no price data for BAD".

(** The day that the sample calendar knows, and a day that it does not. *)
Definition known_day : CalendarDate := mkDate 2025 7 24.
Definition other_day : CalendarDate := mkDate 2025 7 25.

(** A calendar source that is down. *)
Definition broken_calendar (d : CalendarDate) (queries : nat)
    : Result DataFrame * nat :=
  (Raise (mkExn RuntimeError "connection refused"), S queries).

(** The text of a value in an f-string; a dict is shown by its size
    only. *)
Definition py_format (v : PyVal) : string :=
  match v with
  | PNone => "None"
  | PBool true => "True"
  | PBool false => "False"
  | PInt z => pretty z
  | PStr s => s
  | PDict d => "{" ++ pretty (size d) ++ " items}"
  end.

(** A result with signals that are not booleans, and a result without
    the expected move. *)
Definition loose_dict : gmap string PyVal :=
  <["avg_volume" := PInt 1]>
    (<["iv30_rv30" := PStr ""]>
       (<["ts_slope_0_45" := PStr "yes"]>
          (<["expected_move" := PNone]> ∅))).

Definition nomove_dict : gmap string PyVal :=
  <["avg_volume" := PBool true]>
    (<["iv30_rv30" := PBool true]>
       (<["ts_slope_0_45" := PBool true]> ∅)).

(** A scorer that answers with such results for two symbols, and is
    interrupted on a third. *)
Definition loose_scorer (symbol : string) (calls : nat)
    : Result PyVal * nat :=
  (if String.eqb symbol "NUM" then Return (PDict loose_dict)
   else if String.eqb symbol "NOMOVE" then Return (PDict nomove_dict)
   else if String.eqb symbol "STOP" then
     Raise (mkExn KeyboardInterrupt "")
   else (scorer symbol calls).1,
   S calls).

(** The table of the day that the sample calendar knows, and a calendar
    whose table has a row and no column. *)
Definition known_table : DataFrame :=
  mkDF ["time"]
    [("AAPL", {["time" := PStr "time-after-hours"]}); ("XYZ", ∅)].

Definition bare_table : DataFrame := mkDF [] [("AAPL", ∅)].

Definition bare_calendar (d : CalendarDate) (queries : nat)
    : Result DataFrame * nat :=
  (Return bare_table, S queries).

(** A batch with a failure in the middle, and what the analyzer makes of
    it. *)
Definition batch : list Entry := [entry "AAPL"; entry "BAD"; entry "MSFT"].

Definition batch_result : RunResult :=
  mkRun [scored "AAPL" "5.2%" "Recommended"]
        [scored "MSFT" "3.1%" "Consider"] []
        [("BAD", "no price data for BAD")].

(** A rule that is on by a string, and a disk with an empty list. *)
Definition static_list_on_by_text : gmap string PyVal :=
  {[ "use_static_list" := PStr "false" ]}.

(** A rule with any value for the key. *)
Definition static_list_by (v : PyVal) : gmap string PyVal :=
  {[ "use_static_list" := v ]}.

Definition blank_disk : FileSystem :=
  mkFS {[ static_stocks_txt := Readable "" ]} [].

Definition machine0 : pipeline.Machine (World CalendarDate nat nat) :=
  pipeline.mkMachine world0 disk.

Definition machine_without_list
    : pipeline.Machine (World CalendarDate nat nat) :=
  pipeline.mkMachine world0 empty_disk.

End samples.

(** * Properties *)

(** ** Text *)

Section text.

Implicit Types (s line core pre post : string) (c : Ascii.ascii).

Lemma string_app_cons c s1 s2 : String c s1 ++ s2 = String c (s1 ++ s2).
Proof. reflexivity. Qed.

Lemma string_app_nil_l s : "" ++ s = s.
Proof. reflexivity. Qed.

Lemma string_app_nil_r s : s ++ "" = s.
Proof.
  induction s as [|c s IH]; [done |]. by rewrite string_app_cons, IH.
Qed.

Lemma lstrip_all_space pre s :
  all_space pre = true → lstrip (pre ++ s) = lstrip s.
Proof.
  induction pre as [|c pre IH]; [done |].
  simpl. intros [Hc Hpre]%andb_prop. rewrite Hc. auto.
Qed.

Lemma lstrip_head s : space_at (head_char s) = false → lstrip s = s.
Proof. destruct s as [|c s]; simpl; [done |]. by intros ->. Qed.

Lemma rstrip_all_space post : all_space post = true → rstrip post = "".
Proof.
  induction post as [|c post IH]; simpl; [done |].
  intros [Hc Hpost]%andb_prop. by rewrite IH, Hc.
Qed.

Lemma rstrip_core core post :
  core ≠ "" → space_at (last_char core) = false → all_space post = true →
  rstrip (core ++ post) = core.
Proof.
  intros Hne Hlast Hpost. induction core as [|c core IH]; [done |].
  rewrite string_app_cons. simpl rstrip.
  destruct core as [|c' core'].
  - rewrite string_app_nil_l, (rstrip_all_space post) by done.
    simpl in Hlast. by rewrite Hlast.
  - rewrite IH; done.
Qed.

(** A padded line strips to its core. *)
Lemma strip_padded line core : padded line core → strip line = core.
Proof.
  intros (pre & post & -> & Hpre & Hpost & Hhead & Hlast). unfold strip.
  rewrite lstrip_all_space by done.
  destruct core as [|c core].
  - rewrite string_app_nil_l.
    rewrite <- (string_app_nil_r post), lstrip_all_space by done. done.
  - rewrite string_app_cons, lstrip_head by done.
    rewrite <- string_app_cons. by apply rstrip_core.
Qed.

Lemma lstrip_split s :
  ∃ pre, s = pre ++ lstrip s ∧ all_space pre = true
         ∧ space_at (head_char (lstrip s)) = false.
Proof.
  induction s as [|c s (pre & Hs & Hpre & Hhead)]; simpl.
  - by exists "".
  - destruct (isspace c) eqn:Hc.
    + exists (String c pre). rewrite string_app_cons, <- Hs. simpl.
      by rewrite Hc, Hpre.
    + exists "". simpl. by rewrite Hc.
Qed.

Lemma rstrip_split s :
  ∃ post, s = rstrip s ++ post ∧ all_space post = true
          ∧ space_at (last_char (rstrip s)) = false
          ∧ (rstrip s ≠ "" → head_char (rstrip s) = head_char s).
Proof.
  induction s as [|c s (post & Hs & Hpost & Hlast & Hhead)]; simpl.
  - by exists "".
  - destruct (rstrip s) as [|c' r] eqn:Hr.
    + rewrite string_app_nil_l in Hs. subst post.
      destruct (isspace c) eqn:Hc.
      * exists (String c s). rewrite string_app_nil_l. simpl.
        by rewrite Hc, Hpost.
      * exists s. rewrite string_app_cons, string_app_nil_l. simpl.
        by rewrite Hc.
    + exists post. rewrite string_app_cons, <- Hs. done.
Qed.

(** [strip] yields a core of the line. *)
Lemma padded_strip line : padded line (strip line).
Proof.
  unfold strip.
  destruct (lstrip_split line) as (pre & Hline & Hpre & Hhead).
  destruct (rstrip_split (lstrip line)) as (post & Hs & Hpost & Hlast & Hh).
  exists pre, post. split; [by rewrite <- Hs |]. do 2 (split; [done |]).
  split; [| done].
  destruct (rstrip (lstrip line)) as [|c r] eqn:Hr; [done |].
  by rewrite Hh.
Qed.

Lemma strip_spec line core : strip line = core ↔ padded line core.
Proof.
  split; [intros <-; apply padded_strip | apply strip_padded].
Qed.

Lemma padded_blank line : all_space line = true → padded line "".
Proof.
  intros H. exists line, "".
  by rewrite string_app_nil_l, string_app_nil_r.
Qed.

End text.

(** ** The eligibility filter *)

Section filter_properties.

Import utils.

Implicit Types (tickers : list Entry) (t : Entry) (fs : FileSystem)
  (rules : gmap string PyVal) (allow : list string).

Lemma open_read_readable path content fs :
  files fs !! path = Some (Readable content) →
  open_read path fs = (Return content, log_open path fs).
Proof. intros H. unfold open_read, bind, modify. simpl. by rewrite H. Qed.

Lemma open_read_missing path fs :
  files fs !! path = None →
  ∃ e, open_read path fs = (Raise e, log_open path fs)
       ∧ exn_class e = FileNotFoundError.
Proof.
  intros H. unfold open_read, bind, modify. simpl. rewrite H. by eexists.
Qed.

Lemma open_read_unreadable path fs :
  files fs !! path = Some Unreadable →
  ∃ e, open_read path fs = (Raise e, log_open path fs)
       ∧ exn_class e = PermissionError.
Proof.
  intros H. unfold open_read, bind, modify. simpl. rewrite H. by eexists.
Qed.

Lemma get_static_stocks_readable content fs :
  files fs !! static_stocks_txt = Some (Readable content) →
  get_static_stocks fs
  = (Return (strip <$> readlines content), log_open static_stocks_txt fs).
Proof.
  intros H. unfold get_static_stocks, bind.
  by rewrite (open_read_readable _ _ _ H).
Qed.

(** The loop with the rule on keeps the entries whose symbol is in the
    list, after what was already collected. *)
Lemma filter_loop_on rules allow tickers (kept : list Entry) :
  truthy (dict_get rules "use_static_list") = true →
  foldl (filter_loop_body rules allow) kept tickers
  = (kept ++ filter (λ t, symbol t ∈ allow) tickers)%list.
Proof.
  intros Hon. revert kept.
  induction tickers as [|t tickers IH]; intros kept; simpl.
  - by rewrite app_nil_r.
  - rewrite IH. unfold filter_loop_body, py_in. rewrite Hon. simpl.
    rewrite filter_cons. destruct (decide (symbol t ∈ allow)) as [Hin|Hout].
    + rewrite bool_decide_eq_true_2 by done. simpl. by rewrite <- app_assoc.
    + rewrite bool_decide_eq_false_2 by done. done.
Qed.

(** The loop with the rule off keeps every entry. *)
Lemma filter_loop_off rules allow tickers (kept : list Entry) :
  truthy (dict_get rules "use_static_list") = false →
  foldl (filter_loop_body rules allow) kept tickers = (kept ++ tickers)%list.
Proof.
  intros Hoff. revert kept.
  induction tickers as [|t tickers IH]; intros kept; simpl.
  - by rewrite app_nil_r.
  - rewrite IH. unfold filter_loop_body. rewrite Hoff. simpl.
    by rewrite <- app_assoc.
Qed.

Lemma filter_stocks_on tickers rules fs allow fs' :
  truthy (dict_get rules "use_static_list") = true →
  get_static_stocks fs = (Return allow, fs') →
  filter_stocks tickers (Some rules) fs
  = (Return (filter (λ t, symbol t ∈ allow) tickers), fs').
Proof.
  intros Hon Hload. unfold filter_stocks, bind. rewrite Hon, Hload.
  unfold ret. by rewrite filter_loop_on.
Qed.

Lemma filter_stocks_falsy tickers rules fs :
  truthy (dict_get rules "use_static_list") = false →
  filter_stocks tickers (Some rules) fs = (Return tickers, fs).
Proof.
  intros Hoff. unfold filter_stocks, bind. rewrite Hoff. unfold ret.
  by rewrite filter_loop_off.
Qed.

Lemma filter_stocks_no_rules tickers fs :
  filter_stocks tickers None fs = (Return tickers, fs).
Proof.
  unfold filter_stocks, bind.
  replace (truthy (dict_get ∅ "use_static_list")) with false by done.
  unfold ret. by rewrite filter_loop_off.
Qed.

Lemma filter_stocks_kept tickers rules fs allow fs' :
  rules !! "use_static_list" = Some (PBool true) →
  get_static_stocks fs = (Return allow, fs') →
  filter_stocks tickers (Some rules) fs
  = (Return (filter (λ t, symbol t ∈ allow) tickers), fs').
Proof.
  intros Hrule Hload. apply filter_stocks_on; [| done].
  unfold dict_get. by rewrite Hrule.
Qed.

(** C3. With [use_static_list: true], [filter_stocks] returns the entries
    of the input whose symbol is equal, as a string, to an element of the
    loaded allow-list: exactly those, in their input order. *)
Theorem filter_stocks_static_list tickers rules fs allow fs' :
  rules !! "use_static_list" = Some (PBool true) →
  get_static_stocks fs = (Return allow, fs') →
  ∃ kept,
    filter_stocks tickers (Some rules) fs = (Return kept, fs')
    ∧ kept = filter (λ t, symbol t ∈ allow) tickers
    ∧ kept `sublist_of` tickers
    ∧ ∀ t, t ∈ kept ↔ t ∈ tickers ∧ ∃ s, s ∈ allow ∧ symbol t = s.
Proof.
  intros Hrule Hload. eexists. split; [| split; [reflexivity |]].
  - by apply filter_stocks_kept.
  - split; [apply sublist_filter |].
    intros t. rewrite list_elem_of_filter. split.
    + intros [Hin Ht]. eauto.
    + intros (Ht & s & Hs & ->). done.
Qed.

(** C7. With [use_static_list] false or absent, and with no rules at
    all, [filter_stocks] returns its input and leaves the file system as
    it was: nothing is opened. *)
Theorem filter_stocks_identity tickers (rules : option (gmap string PyVal)) fs :
  match rules with
  | None => True
  | Some rules =>
      rules !! "use_static_list" = None
      ∨ rules !! "use_static_list" = Some (PBool false)
  end →
  filter_stocks tickers rules fs = (Return tickers, fs)
  ∧ open_log (filter_stocks tickers rules fs).2 = open_log fs.
Proof.
  intros Hoff.
  assert (filter_stocks tickers rules fs = (Return tickers, fs)) as ->; [| done].
  destruct rules as [rules|]; [| apply filter_stocks_no_rules].
  apply filter_stocks_falsy. unfold dict_get. by destruct Hoff as [-> | ->].
Qed.

(** C9. With [use_static_list: true] and the allow-list file missing or
    unreadable, [filter_stocks] raises the failure of [open]: it returns no
    list, whatever the input. *)
Theorem filter_stocks_propagates tickers rules fs :
  rules !! "use_static_list" = Some (PBool true) →
  files fs !! static_stocks_txt = None
  ∨ files fs !! static_stocks_txt = Some Unreadable →
  ∃ e fs',
    filter_stocks tickers (Some rules) fs = (Raise e, fs')
    ∧ (exn_class e = FileNotFoundError ∨ exn_class e = PermissionError)
    ∧ ∀ kept, (filter_stocks tickers (Some rules) fs).1 ≠ Return kept.
Proof.
  intros Hrule Hfile.
  assert (∃ e, open_read static_stocks_txt fs
               = (Raise e, log_open static_stocks_txt fs)
               ∧ (exn_class e = FileNotFoundError
                  ∨ exn_class e = PermissionError)) as (e & Hopen & Hclass).
  { destruct Hfile as [H|H].
    - destruct (open_read_missing _ _ H) as (e & ? & ?); eauto.
    - destruct (open_read_unreadable _ _ H) as (e & ? & ?); eauto. }
  assert (filter_stocks tickers (Some rules) fs
          = (Raise e, log_open static_stocks_txt fs)) as Hrun.
  { unfold filter_stocks, bind, dict_get. rewrite Hrule. simpl.
    unfold get_static_stocks, bind. by rewrite Hopen. }
  exists e, (log_open static_stocks_txt fs). rewrite Hrun. done.
Qed.

(** C10. [get_static_stocks] returns, for each line of the file, that
    line without its leading and trailing whitespace, and the empty string
    for a blank line; so an entry passes the filter exactly when some line
    of the file is its symbol between two runs of whitespace, and an entry
    whose symbol is empty passes when the file has a blank line. *)
Theorem get_static_stocks_stripped content fs :
  files fs !! static_stocks_txt = Some (Readable content) →
  ∃ allow fs',
    get_static_stocks fs = (Return allow, fs')
    ∧ Forall2 padded (readlines content) allow
    ∧ Forall2 (λ line s, all_space line = true → s = "")
        (readlines content) allow
    ∧ ∀ tickers rules,
        rules !! "use_static_list" = Some (PBool true) →
        ∃ kept,
          filter_stocks tickers (Some rules) fs = (Return kept, fs')
          ∧ (∀ t, t ∈ kept ↔
                  t ∈ tickers
                  ∧ ∃ line, line ∈ readlines content ∧ padded line (symbol t))
          ∧ (∀ t line, t ∈ tickers → symbol t = "" →
                       line ∈ readlines content → all_space line = true →
                       t ∈ kept).
Proof.
  intros Hfile. pose proof (get_static_stocks_readable _ _ Hfile) as Hload.
  eexists _, _. split; [exact Hload |].
  split; [| split].
  - apply Forall2_fmap_r, Forall_Forall2_diag, Forall_forall.
    intros line _. apply padded_strip.
  - apply Forall2_fmap_r, Forall_Forall2_diag, Forall_forall.
    intros line _ Hblank. by apply strip_padded, padded_blank.
  - intros tickers rules Hrule.
    eexists. split; [by apply filter_stocks_kept |].
    set (kept := filter _ tickers).
    assert (∀ t, t ∈ kept ↔
              t ∈ tickers
              ∧ ∃ line, line ∈ readlines content ∧ padded line (symbol t))
      as Hiff.
    { intros t. unfold kept. rewrite list_elem_of_filter. split.
      - intros [(line & Hs & Hline)%list_elem_of_fmap Ht].
        split; [done |]. exists line. split; [done |].
        rewrite Hs. apply padded_strip.
      - intros (Ht & line & Hline & Hpad). split; [| done].
        apply list_elem_of_fmap. exists line.
        by rewrite (strip_padded _ _ Hpad). }
    split; [done |].
    intros t line Ht Hsym Hline Hblank. apply Hiff. split; [done |].
    exists line. split; [done |]. rewrite Hsym. by apply padded_blank.
Qed.

End filter_properties.

(** ** The play analyzer and the calendar resolver *)

Section scanner_properties.

Import earnings_scanner.

Context {Date ScorerState CalendarState : Type}.
Variable strptime_Ymd : string → Result Date.
Variable strftime_bdY : Date → string.
Variable compute_recommendation :
  string → ScorerState → Result PyVal * ScorerState.
Variable get_earnings_by_date :
  Date → CalendarState → Result DataFrame * CalendarState.

Local Abbreviation World := (World Date ScorerState CalendarState).
Local Abbreviation analyze := (analyze_earnings_plays compute_recommendation).
Local Abbreviation outcomes_of := (scorer_outcomes compute_recommendation).

Implicit Types (tickers before after : list Entry) (t X : Entry) (w : World)
  (lists r : RunResult) (o : Result PyVal) (d : gmap string PyVal)
  (scored : list (Entry * Result PyVal)).

(** *** The classification rule *)

(** The label depends on the truth values of the three signals only. *)
Lemma recommendation_of_truthy (a b c : PyVal) :
  recommendation_of a b c
  = if truthy a && truthy b && truthy c then "Recommended"
    else if truthy c && xorb (truthy a) (truthy b) then "Consider"
    else "Avoid".
Proof.
  unfold recommendation_of, py_and, py_or, py_not.
  destruct (truthy a) eqn:Ha, (truthy b) eqn:Hb, (truthy c) eqn:Hc;
    simpl; rewrite ?Ha, ?Hb, ?Hc; reflexivity.
Qed.

Lemma recommendation_of_cases (a b c : PyVal) :
  recommendation_of a b c = "Recommended"
  ∨ recommendation_of a b c = "Consider"
  ∨ recommendation_of a b c = "Avoid".
Proof.
  rewrite recommendation_of_truthy.
  destruct (truthy a), (truthy b), (truthy c); simpl; auto.
Qed.

(** *** One iteration of the loop *)

(** An iteration calls the scorer once, on the entry's symbol, and does to
    the lists what [settle] says for the outcome of that call. *)
Lemma analyze_step_settle total lists idx t w o s' :
  compute_recommendation (symbol t) (scorer_state w) = (o, s') →
  ∃ w', analyze_step compute_recommendation total lists (idx, t) w
        = (settle t o lists, w')
        ∧ scorer_state w' = s'
        ∧ scorer_calls w' = (scorer_calls w ++ [symbol t])%list.
Proof.
  intros Hcall.
  unfold analyze_step, score_and_place, try_except, bind, print_end, modify,
    call_scorer, sleep, subscript, settle.
  simpl. rewrite Hcall.
  destruct o as [v|e]; simpl.
  - destruct v as [| | | |d]; simpl; try by eexists.
    unfold ret, raise. repeat (case_lookup; simpl; try by eexists).
  - destruct (is_Exception e); by eexists.
Qed.

(** *** The whole loop *)

Lemma enumerate_cons t tickers start :
  enumerate (t :: tickers) start = (start, t) :: enumerate tickers (S start).
Proof. reflexivity. Qed.

Lemma for_each_cons {W A B} (body : A → B → Eff W A) x xs acc (w : W) :
  for_each body (x :: xs) acc w
  = match body acc x w with
    | (Return acc', w') => for_each body xs acc' w'
    | (Raise e, w') => (Raise e, w')
    end.
Proof. reflexivity. Qed.

Lemma scorer_outcomes_cons x symbols s o s' :
  compute_recommendation x s = (o, s') →
  outcomes_of (x :: symbols) s = o :: outcomes_of symbols s'.
Proof. intros H. simpl. by rewrite H. Qed.

Lemma analyze_loop_settle total tickers start lists w :
  (for_each (analyze_step compute_recommendation total)
     (enumerate tickers start) lists w).1
  = settle_all (zip tickers (outcomes_of (symbol <$> tickers) (scorer_state w)))
      lists.
Proof.
  revert start lists w.
  induction tickers as [|t tickers IH]; intros start lists w; [done |].
  destruct (compute_recommendation (symbol t) (scorer_state w))
    as [o s'] eqn:Hcall.
  destruct (analyze_step_settle total lists start t w o s' Hcall)
    as (w' & Hstep & Hstate & _).
  rewrite enumerate_cons, for_each_cons, Hstep, fmap_cons.
  rewrite (scorer_outcomes_cons _ _ _ _ _ Hcall).
  cbn [zip_with settle_all].
  destruct (settle t o lists) as [lists'|e]; [| done].
  by rewrite IH, Hstate.
Qed.

(** The analyzer computes [settle_all] on its entries paired with the
    outcomes of the scorer calls. *)
Lemma analyze_settle_all tickers w :
  (analyze tickers w).1
  = settle_all (zip tickers (outcomes_of (symbol <$> tickers) (scorer_state w)))
      no_results.
Proof.
  unfold analyze_earnings_plays, bind.
  pose proof (analyze_loop_settle (length tickers) tickers 1 no_results w)
    as Hloop.
  destruct (for_each _ _ _ w) as [[lists|e] w']; simpl in *; by rewrite <- Hloop.
Qed.

(** The calls made by the loop: one per entry, in order, up to the entry at
    which an exception leaves the loop, if any. *)
Lemma analyze_loop_calls total tickers start lists w :
  ∃ called,
    scorer_calls (for_each (analyze_step compute_recommendation total)
                    (enumerate tickers start) lists w).2
    = (scorer_calls w ++ called)%list
    ∧ called `prefix_of` (symbol <$> tickers)
    ∧ (∀ r, (for_each (analyze_step compute_recommendation total)
               (enumerate tickers start) lists w).1 = Return r →
            called = symbol <$> tickers).
Proof.
  revert start lists w.
  induction tickers as [|t tickers IH]; intros start lists w.
  - exists []. simpl. by rewrite app_nil_r.
  - destruct (compute_recommendation (symbol t) (scorer_state w))
      as [o s'] eqn:Hcall.
    destruct (analyze_step_settle total lists start t w o s' Hcall)
      as (w' & Hstep & _ & Hcalls).
    rewrite enumerate_cons, for_each_cons, Hstep, fmap_cons.
    destruct (settle t o lists) as [lists'|e].
    + destruct (IH (S start) lists' w') as (called & Hlog & Hpre & Hall).
      exists (symbol t :: called). rewrite Hlog, Hcalls, <- app_assoc.
      split; [done |]. split; [by apply prefix_cons |].
      intros r Hr. by rewrite (Hall r Hr).
    + exists [symbol t]. simpl. split; [done |].
      split; [apply prefix_cons, prefix_nil | done].
Qed.

Lemma calls_during_prefix tickers w :
  calls_during compute_recommendation tickers w `prefix_of` (symbol <$> tickers)
  ∧ (∀ r, (analyze tickers w).1 = Return r →
          calls_during compute_recommendation tickers w = symbol <$> tickers).
Proof.
  unfold calls_during, analyze_earnings_plays, bind.
  destruct (analyze_loop_calls (length tickers) tickers 1 no_results w)
    as (called & Hlog & Hpre & Hall).
  destruct (for_each _ _ _ w) as [[lists|e] w'] eqn:Hloop; simpl in *.
  - rewrite Hlog, drop_app_length. split; [done |].
    intros r _. by apply (Hall lists).
  - rewrite Hlog, drop_app_length. split; [done |]. intros r Hr. done.
Qed.

(** *** [settle_all] as a list function *)

Lemma merge_assoc r1 r2 r3 : merge (merge r1 r2) r3 = merge r1 (merge r2 r3).
Proof. unfold merge. simpl. by rewrite <- !app_assoc. Qed.

Lemma merge_no_results_l r : merge no_results r = r.
Proof. by destruct r. Qed.

Lemma merge_no_results_r r : merge r no_results = r.
Proof. destruct r. unfold merge. simpl. by rewrite !app_nil_r. Qed.

Lemma place_merge x lists : place x lists = merge lists (place x no_results).
Proof.
  unfold place.
  destruct (String.eqb _ "Recommended"); [| destruct (String.eqb _ "Consider")];
    unfold merge; simpl; by rewrite ?app_nil_r.
Qed.

(** What an outcome adds to the lists does not depend on the lists. *)
Lemma settle_merge t o lists :
  settle t o lists
  = match settle t o no_results with
    | Return added => Return (merge lists added)
    | Raise e => Raise e
    end.
Proof.
  assert (∀ x, append_error x lists = merge lists (append_error x no_results))
    as Herr.
  { intros x. unfold merge. simpl. by rewrite !app_nil_r. }
  unfold settle. destruct o as [v|e].
  - destruct v as [| | | |d]; rewrite ?merge_no_results_r; try done.
    repeat case_lookup; simpl; rewrite ?Herr; try done.
    by rewrite place_merge.
  - destruct (is_Exception e); [by rewrite Herr | done].
Qed.

Lemma settle_all_merge scored lists :
  settle_all scored lists
  = match settle_all scored no_results with
    | Return added => Return (merge lists added)
    | Raise e => Raise e
    end.
Proof.
  revert lists. induction scored as [|[t o] scored IH]; intros lists;
    cbn [settle_all].
  - by rewrite merge_no_results_r.
  - rewrite settle_merge. destruct (settle t o no_results) as [added|e]; [| done].
    rewrite IH, (IH added).
    destruct (settle_all scored no_results) as [added'|e]; [| done].
    by rewrite merge_assoc.
Qed.

Lemma settle_all_app scored1 scored2 lists :
  settle_all (scored1 ++ scored2) lists
  = match settle_all scored1 lists with
    | Return lists' => settle_all scored2 lists'
    | Raise e => Raise e
    end.
Proof.
  revert lists. induction scored1 as [|[t o] scored1 IH]; intros lists;
    [done |].
  rewrite <- app_comm_cons. cbn [settle_all].
  destruct (settle t o lists); [apply IH | done].
Qed.

Lemma zip_insert before after X (outs1 outs2 : list (Result PyVal)) o :
  length outs1 = length before →
  zip (before ++ X :: after) (outs1 ++ o :: outs2)
  = (zip before outs1 ++ (X, o) :: zip after outs2)%list
  ∧ zip (before ++ after) (outs1 ++ outs2)
    = (zip before outs1 ++ zip after outs2)%list.
Proof. intros Hlen. by rewrite !zip_with_app. Qed.

(** *** The claims on the analyzer *)

(** C1. When the scorer returns a record whose three signals are the
    booleans [a], [b], [c], the iteration returns the four lists with the
    entry added at the end of exactly one of the three buckets: of
    [recommended] when all three are true, of [consider] when [c] is true
    and exactly one of [a], [b] is, and of [avoid] otherwise; the label
    the entry carries names the bucket, the other two buckets and
    [errors] are as they were, and nothing else enters the choice. *)
Theorem classification_rule (a b c : bool) move d total lists idx t w s' :
  compute_recommendation (symbol t) (scorer_state w) = (Return (PDict d), s') →
  d !! "avg_volume" = Some (PBool a) →
  d !! "iv30_rv30" = Some (PBool b) →
  d !! "ts_slope_0_45" = Some (PBool c) →
  d !! "expected_move" = Some move →
  ∃ lists',
    (analyze_step compute_recommendation total lists (idx, t) w).1
    = Return lists'
    ∧ recommended lists'
      = (if a && b && c
         then recommended lists
              ++ [mkCategorized (symbol t) (time t) move "Recommended"]
         else recommended lists)%list
    ∧ consider lists'
      = (if c && xorb a b
         then consider lists
              ++ [mkCategorized (symbol t) (time t) move "Consider"]
         else consider lists)%list
    ∧ avoid lists'
      = (if negb (a && b && c) && negb (c && xorb a b)
         then avoid lists ++ [mkCategorized (symbol t) (time t) move "Avoid"]
         else avoid lists)%list
    ∧ errors lists' = errors lists.
Proof.
  intros Hcall Ha Hb Hc Hmove.
  destruct (analyze_step_settle total lists idx t w _ _ Hcall)
    as (w' & -> & _).
  unfold settle. rewrite Ha, Hb, Hc, Hmove.
  eexists. split; [reflexivity |].
  by destruct a, b, c.
Qed.

Lemma scored_entry_dict t d a b c move :
  d !! "avg_volume" = Some a → d !! "iv30_rv30" = Some b →
  d !! "ts_slope_0_45" = Some c → d !! "expected_move" = Some move →
  scored_entry (t, Return (PDict d))
  = Some (mkCategorized (symbol t) (time t) move (recommendation_of a b c)).
Proof. intros Ha Hb Hc Hmove. simpl. by rewrite Ha, Hb, Hc, Hmove. Qed.

Lemma well_formed_dict v :
  well_formed v = true →
  ∃ d a b c move, v = PDict d
    ∧ d !! "avg_volume" = Some (PBool a) ∧ d !! "iv30_rv30" = Some (PBool b)
    ∧ d !! "ts_slope_0_45" = Some (PBool c)
    ∧ d !! "expected_move" = Some (PStr move).
Proof.
  destruct v as [| | | |d]; try done. simpl.
  destruct (d !! "avg_volume") as [[|a| | |]|] eqn:Ha; try done.
  destruct (d !! "iv30_rv30") as [[|b| | |]|] eqn:Hb; try done.
  destruct (d !! "ts_slope_0_45") as [[|c| | |]|] eqn:Hc; try done.
  destruct (d !! "expected_move") as [[| | |move|]|] eqn:Hmove; try done.
  intros _. by exists d, a, b, c, move.
Qed.

(** On conforming outcomes every entry is settled, and the four lists are
    the scored entries by label and the failed entries, in input order. *)
Lemma settle_all_conforming scored lists :
  Forall (λ p, conforming p.2 = true) scored →
  ∃ r, settle_all scored lists = Return r
    ∧ recommended r
      = (recommended lists
         ++ filter (labelled "Recommended") (omap scored_entry scored))%list
    ∧ consider r
      = (consider lists
         ++ filter (labelled "Consider") (omap scored_entry scored))%list
    ∧ avoid r
      = (avoid lists
         ++ filter (labelled "Avoid") (omap scored_entry scored))%list
    ∧ errors r = (errors lists ++ omap failed_entry scored)%list.
Proof.
  intros Hall. revert lists.
  induction Hall as [|[t o] scored Ho _ IH]; intros lists.
  - exists lists. simpl. by rewrite !app_nil_r.
  - simpl in Ho. destruct o as [v|e].
    + apply well_formed_dict in Ho
        as (d & a & b & c & move & -> & Ha & Hb & Hc & Hmove).
      cbn [settle_all settle omap list_omap].
      rewrite (scored_entry_dict t d _ _ _ _ Ha Hb Hc Hmove).
      rewrite Ha, Hb, Hc, Hmove. cbn [failed_entry].
      set (x := mkCategorized _ _ _ _).
      destruct (IH (place x lists)) as (r & -> & Hrec & Hcon & Havo & Herr).
      exists r. split; [done |]. rewrite Hrec, Hcon, Havo, Herr.
      rewrite !filter_cons. unfold place, labelled.
      destruct (recommendation_of_cases (PBool a) (PBool b) (PBool c))
        as [Hl|[Hl|Hl]]; subst x; cbn [ce_recommendation]; rewrite Hl;
        simpl; by rewrite <- ?app_assoc.
    + cbn [settle_all settle omap list_omap scored_entry failed_entry].
      simpl in Ho. rewrite Ho.
      destruct (IH (append_error (symbol t, exn_str e) lists))
        as (r & -> & Hrec & Hcon & Havo & Herr).
      exists r. split; [done |]. rewrite Hrec, Hcon, Havo, Herr. simpl.
      by rewrite <- app_assoc.
Qed.

Lemma scored_entry_label p x :
  scored_entry p = Some x →
  labelled "Recommended" x ∨ labelled "Consider" x ∨ labelled "Avoid" x.
Proof.
  destruct p as [t [[| | | |d]|e]]; try done. simpl.
  repeat case_lookup; try done.
  intros [= <-]. apply recommendation_of_cases.
Qed.

(** Entries that carry one of the three labels are split by the three
    filters: each lands in exactly one. *)
Lemma three_labels_partition (xs : list CategorizedEntry) :
  Forall (λ x, labelled "Recommended" x ∨ labelled "Consider" x
               ∨ labelled "Avoid" x) xs →
  (filter (labelled "Recommended") xs ++ filter (labelled "Consider") xs
   ++ filter (labelled "Avoid") xs)%list ≡ₚ xs.
Proof.
  induction 1 as [|x xs Hx _ IH]; [done |].
  assert (∀ l l', l ≠ l' → labelled l x → ¬ labelled l' x) as Hother.
  { unfold labelled. congruence. }
  destruct Hx as [Hx|[Hx|Hx]].
  - rewrite (filter_cons_True (labelled "Recommended")) by done.
    rewrite (filter_cons_False (labelled "Consider")),
      (filter_cons_False (labelled "Avoid")) by (eapply Hother; [| exact Hx]; done).
    simpl. by rewrite IH.
  - rewrite (filter_cons_True (labelled "Consider")) by done.
    rewrite (filter_cons_False (labelled "Recommended")),
      (filter_cons_False (labelled "Avoid")) by (eapply Hother; [| exact Hx]; done).
    rewrite <- app_comm_cons. by rewrite <- Permutation_middle, IH.
  - rewrite (filter_cons_True (labelled "Avoid")) by done.
    rewrite (filter_cons_False (labelled "Recommended")),
      (filter_cons_False (labelled "Consider")) by (eapply Hother; [| exact Hx]; done).
    by rewrite <- !Permutation_middle, IH.
Qed.

Lemma conforming_scored_or_failed scored :
  Forall (λ p, conforming p.2 = true) scored →
  length (omap scored_entry scored) + length (omap failed_entry scored)
  = length scored.
Proof.
  induction 1 as [|[t o] scored Ho _ IH]; [done |].
  cbn [omap list_omap]. simpl in Ho. destruct o as [v|e].
  - apply well_formed_dict in Ho
      as (d & a & b & c & move & -> & Ha & Hb & Hc & Hmove).
    rewrite (scored_entry_dict t d _ _ _ _ Ha Hb Hc Hmove).
    cbn [failed_entry length]. simpl. by rewrite IH.
  - cbn [scored_entry failed_entry length].
    rewrite Nat.add_succ_r. simpl. by rewrite IH.
Qed.

Lemma outcomes_length symbols s : length (outcomes_of symbols s) = length symbols.
Proof.
  revert s. induction symbols as [|x symbols IH]; intros s; [done |].
  simpl. destruct (compute_recommendation x s). simpl. by rewrite IH.
Qed.

(** C2. If every scorer call of the run returns a well-formed record or
    raises a failure, the analyzer returns, and its four lists partition
    the batch: the scored entries (one per call that returned) are spread
    over [recommended], [consider] and [avoid] by their label, each in
    exactly one; the failed entries (one per call that raised) make up
    [errors]; and the four lengths add up to the length of the batch. *)
Theorem analyze_partitions tickers w :
  Forall (λ o, conforming o = true)
    (outcomes_of (symbol <$> tickers) (scorer_state w)) →
  ∃ r w',
    analyze tickers w = (Return r, w')
    ∧ recommended r
      = filter (labelled "Recommended")
          (omap scored_entry
             (zip tickers (outcomes_of (symbol <$> tickers) (scorer_state w))))
    ∧ consider r
      = filter (labelled "Consider")
          (omap scored_entry
             (zip tickers (outcomes_of (symbol <$> tickers) (scorer_state w))))
    ∧ avoid r
      = filter (labelled "Avoid")
          (omap scored_entry
             (zip tickers (outcomes_of (symbol <$> tickers) (scorer_state w))))
    ∧ errors r
      = omap failed_entry
          (zip tickers (outcomes_of (symbol <$> tickers) (scorer_state w)))
    ∧ (recommended r ++ consider r ++ avoid r)%list
      ≡ₚ omap scored_entry
           (zip tickers (outcomes_of (symbol <$> tickers) (scorer_state w)))
    ∧ length (omap scored_entry
                (zip tickers
                   (outcomes_of (symbol <$> tickers) (scorer_state w))))
      + length (errors r) = length tickers
    ∧ length (recommended r) + length (consider r) + length (avoid r)
      + length (errors r) = length tickers.
Proof.
  intros Hall.
  set (scored := zip tickers _).
  assert (Forall (λ p, conforming p.2 = true) scored) as Hscored.
  { apply Forall_forall. intros [t o] Hin.
    apply (proj1 (Forall_forall _ _) Hall). apply (elem_of_zip_r _ _ _ _ Hin). }
  assert (length scored = length tickers) as Hlen.
  { unfold scored. rewrite length_zip_with_l_eq; [done |].
    by rewrite outcomes_length, length_fmap. }
  destruct (settle_all_conforming scored no_results Hscored)
    as (r & Hrun & Hrec & Hcon & Havo & Herr).
  simpl in Hrec, Hcon, Havo, Herr.
  pose proof (analyze_settle_all tickers w) as Hfst. fold scored in Hfst.
  destruct (analyze tickers w) as [res w'] eqn:Hrunw. simpl in Hfst.
  exists r, w'. split; [by rewrite Hfst, Hrun |].
  do 4 (split; [done |]).
  assert ((recommended r ++ consider r ++ avoid r)%list
          ≡ₚ omap scored_entry scored) as Hperm.
  { rewrite Hrec, Hcon, Havo. apply three_labels_partition, Forall_forall.
    intros x (p & _ & Hx)%list_elem_of_omap. by apply (scored_entry_label p). }
  split; [done |].
  pose proof (conforming_scored_or_failed scored Hscored) as Hsum.
  rewrite Hlen, <- Herr in Hsum. split; [done |].
  apply Permutation_length in Hperm. rewrite !length_app in Hperm. lia.
Qed.

(** C4. Let the scorer call for entry [X] raise a failure [e], and
    compare with the run on the batch without [X] in which the other
    entries get the same outcomes.  If that run returns [r'], the run with
    [X] returns too, with the same [recommended], [consider] and [avoid],
    and with the errors of [r'] plus the one pair [(symbol X, str(e))], at
    the place of [X]. *)
Theorem failure_is_isolated before X after w w' outs1 outs2 e r' :
  outcomes_of (symbol <$> (before ++ X :: after)%list) (scorer_state w)
  = (outs1 ++ Raise e :: outs2)%list →
  length outs1 = length before →
  is_Exception e = true →
  outcomes_of (symbol <$> (before ++ after)%list) (scorer_state w')
  = (outs1 ++ outs2)%list →
  (analyze (before ++ after)%list w').1 = Return r' →
  ∃ r errs1 errs2,
    (analyze (before ++ X :: after)%list w).1 = Return r
    ∧ recommended r = recommended r'
    ∧ consider r = consider r'
    ∧ avoid r = avoid r'
    ∧ errors r' = (errs1 ++ errs2)%list
    ∧ errors r = (errs1 ++ (symbol X, exn_str e) :: errs2)%list.
Proof.
  intros Hwith Hlen Hexn Hwithout Hrun'.
  destruct (zip_insert before after X outs1 outs2 (Raise e) Hlen)
    as [Hzip Hzip'].
  rewrite analyze_settle_all, Hwithout, Hzip', settle_all_app in Hrun'.
  rewrite analyze_settle_all, Hwith, Hzip, settle_all_app.
  destruct (settle_all (zip before outs1) no_results) as [lists|]; [| done].
  cbn [settle_all settle]. rewrite Hexn.
  rewrite settle_all_merge in Hrun'. rewrite settle_all_merge.
  destruct (settle_all (zip after outs2) no_results) as [added|]; [| done].
  injection Hrun' as <-.
  eexists _, (errors lists), (errors added). split; [reflexivity |].
  simpl. by rewrite <- app_assoc.
Qed.

(** C5, as the code has it.  The scorer is called once per entry of the
    batch, in batch order: the symbols passed during a run are a prefix of
    the symbols of the batch, all of them when the run returns.  So a
    symbol is passed as often as the batch holds it, and no symbol is
    passed twice when the symbols of the batch are distinct. *)
Theorem scorer_called_once_per_entry tickers w :
  calls_during compute_recommendation tickers w `prefix_of` (symbol <$> tickers)
  ∧ (∀ r, (analyze tickers w).1 = Return r →
          calls_during compute_recommendation tickers w = symbol <$> tickers)
  ∧ (NoDup (symbol <$> tickers) →
     NoDup (calls_during compute_recommendation tickers w)).
Proof.
  destruct (calls_during_prefix tickers w) as [Hpre Hall].
  split; [done |]. split; [done |].
  intros Hnodup. destruct Hpre as [rest Hrest].
  apply (sublist_NoDup _ _ Hnodup). rewrite Hrest.
  by apply sublist_inserts_r.
Qed.

(** C6, as the code has it.  A scorer call that returns a value that is
    not a dict adds nothing to any of the four lists: the run gives what
    the run on the batch without that entry gives, the other entries
    getting the same outcomes. *)
Theorem non_dict_result_is_skipped before X after w w' outs1 outs2 v :
  outcomes_of (symbol <$> (before ++ X :: after)%list) (scorer_state w)
  = (outs1 ++ Return v :: outs2)%list →
  length outs1 = length before →
  isinstance_dict v = false →
  outcomes_of (symbol <$> (before ++ after)%list) (scorer_state w')
  = (outs1 ++ outs2)%list →
  (analyze (before ++ X :: after)%list w).1 = (analyze (before ++ after)%list w').1.
Proof.
  intros Hwith Hlen Hdict Hwithout.
  destruct (zip_insert before after X outs1 outs2 (Return v) Hlen)
    as [Hzip Hzip'].
  rewrite !analyze_settle_all, Hwith, Hwithout, Hzip, Hzip', !settle_all_app.
  destruct (settle_all (zip before outs1) no_results) as [lists|]; [| done].
  cbn [settle_all]. by destruct v.
Qed.

(** *** The calendar resolver *)

(** C8. A date string on which the parse raises [ValueError] makes
    [get_earnings_for_date] return the empty list: it does not raise, the
    calendar source is not called and keeps its state, and the one thing
    written is the message on the date format. *)
Theorem malformed_date_yields_nothing date_str e w :
  strptime_Ymd date_str = Raise e →
  is_ValueError e = true →
  ∃ w',
    get_earnings_for_date strptime_Ymd strftime_bdY get_earnings_by_date
      (Some date_str) w = (Return [], w')
    ∧ calendar_queries w' = calendar_queries w
    ∧ calendar_state w' = calendar_state w
    ∧ stdout w' = (stdout w ++ [String.append invalid_date_message nl])%list.
Proof.
  intros Hparse Hclass.
  unfold get_earnings_for_date, resolve_date, try_except, bind.
  rewrite Hparse, Hclass. simpl. by eexists.
Qed.

End scanner_properties.

(** ** Runs on the sample data *)

Section sample_runs.

Import utils earnings_scanner samples.

Example readlines_sample :
  readlines allow_list_text
  = ["AAPL" ++ nl; "  MSFT " ++ nl; nl; "TSLA"].
Proof. vm_compute. reflexivity. Qed.

Example strip_sample :
  strip ("  MSFT " ++ nl) = "MSFT" ∧ strip nl = "" ∧ strip "A B" = "A B".
Proof. vm_compute. done. Qed.

Example classification_table :
  recommendation_of (PBool true) (PBool true) (PBool true) = "Recommended"
  ∧ recommendation_of (PBool true) (PBool false) (PBool true) = "Consider"
  ∧ recommendation_of (PBool false) (PBool true) (PBool true) = "Consider"
  ∧ recommendation_of (PBool false) (PBool false) (PBool true) = "Avoid"
  ∧ recommendation_of (PBool true) (PBool true) (PBool false) = "Avoid"
  ∧ recommendation_of (PBool true) (PBool false) (PBool false) = "Avoid"
  ∧ recommendation_of (PBool false) (PBool true) (PBool false) = "Avoid"
  ∧ recommendation_of (PBool false) (PBool false) (PBool false) = "Avoid".
Proof. vm_compute. done. Qed.

Example resolver_sample :
  (get_earnings_for_date strptime_Ymd strftime_bdY calendar
     (Some "2025-07-24") world0).1
  = Return [entry "AAPL"; mkEntry "XYZ" (PStr "time-not-supplied")].
Proof. vm_compute. reflexivity. Qed.

(** The pipeline on the sample day: the calendar gives AAPL and XYZ, the
    allow-list keeps AAPL, the scorer is called for AAPL only and
    recommends it. *)
Example pipeline_sample :
  ∃ found w1 kept fs1 r w2,
    get_earnings_for_date strptime_Ymd strftime_bdY calendar
      (Some "2025-07-24") world0 = (Return found, w1)
    ∧ filter_stocks found (Some static_list_on) disk = (Return kept, fs1)
    ∧ analyze_earnings_plays scorer kept w1 = (Return r, w2)
    ∧ r = mkRun [scored "AAPL" "5.2%" "Recommended"] [] [] []
    ∧ scorer_calls w2 = ["AAPL"].
Proof.
  exists [entry "AAPL"; mkEntry "XYZ" (PStr "time-not-supplied")],
    (get_earnings_for_date strptime_Ymd strftime_bdY calendar
       (Some "2025-07-24") world0).2,
    [entry "AAPL"], (log_open static_stocks_txt disk),
    (mkRun [scored "AAPL" "5.2%" "Recommended"] [] [] []),
    (analyze_earnings_plays scorer [entry "AAPL"]
       (get_earnings_for_date strptime_Ymd strftime_bdY calendar
          (Some "2025-07-24") world0).2).2.
  repeat split; vm_compute; reflexivity.
Qed.

(** C1 on a record with signals (true, false, true): the entry goes to
    [consider]. *)
Lemma classification_rule_witness :
  ∃ lists',
    (analyze_step scorer 1 no_results (1, entry "MSFT") world0).1
    = Return lists'
    ∧ recommended lists' = []
    ∧ consider lists'
      = [mkCategorized "MSFT" (PStr "time-after-hours") (PStr "3.1%")
           "Consider"]
    ∧ avoid lists' = []
    ∧ errors lists' = [].
Proof.
  apply (classification_rule scorer true false true (PStr "3.1%")
           (signals_dict true false true (PStr "3.1%"))
           1 no_results 1 (entry "MSFT") world0 1);
    vm_compute; reflexivity.
Defined.

(** C2 on a batch of five with one failure and a repeated symbol. *)
Lemma analyze_partitions_witness :
  ∃ r, (analyze_earnings_plays scorer
          [entry "AAPL"; entry "BAD"; entry "MSFT"; entry "TSLA";
           entry "AAPL"] world0).1 = Return r
       ∧ length (recommended r) + length (consider r) + length (avoid r)
         + length (errors r) = 5.
Proof.
  destruct (analyze_partitions scorer
              [entry "AAPL"; entry "BAD"; entry "MSFT"; entry "TSLA";
               entry "AAPL"] world0)
    as (r & w' & Hrun & _ & _ & _ & _ & _ & _ & Hsum).
  - vm_compute. repeat constructor.
  - exists r. by rewrite Hrun.
Defined.

(** C3 on the sample allow-list: of the six candidates, the two listed
    symbols and the empty symbol remain. *)
Lemma filter_stocks_static_list_witness :
  ∃ kept,
    filter_stocks candidates (Some static_list_on) disk
    = (Return kept, log_open static_stocks_txt disk)
    ∧ kept = filter (λ t, symbol t ∈ ["AAPL"; "MSFT"; ""; "TSLA"]) candidates
    ∧ kept `sublist_of` candidates
    ∧ ∀ t, t ∈ kept ↔
           t ∈ candidates
           ∧ ∃ s, s ∈ ["AAPL"; "MSFT"; ""; "TSLA"] ∧ symbol t = s.
Proof.
  apply filter_stocks_static_list; vm_compute; reflexivity.
Defined.

(** C4 on a batch whose second entry fails. *)
Lemma failure_is_isolated_witness :
  ∃ r errs1 errs2,
    (analyze_earnings_plays scorer
       [entry "AAPL"; entry "BAD"; entry "MSFT"] world0).1 = Return r
    ∧ recommended r = [scored "AAPL" "5.2%" "Recommended"]
    ∧ consider r = [scored "MSFT" "3.1%" "Consider"]
    ∧ avoid r = []
    ∧ [] = (errs1 ++ errs2)%list
    ∧ errors r = (errs1 ++ ("BAD", "no price data for BAD") :: errs2)%list.
Proof.
  apply (failure_is_isolated scorer [entry "AAPL"] (entry "BAD")
           [entry "MSFT"] world0 world0
           [Return (signals true true true (PStr "5.2%"))]
           [Return (signals true false true (PStr "3.1%"))]
           no_price_data
           (mkRun [scored "AAPL" "5.2%" "Recommended"]
                  [scored "MSFT" "3.1%" "Consider"] [] []));
    vm_compute; reflexivity.
Defined.

(** C5 on a batch of distinct symbols: no symbol is passed twice. *)
Lemma scorer_called_once_per_entry_witness :
  NoDup (calls_during scorer [entry "AAPL"; entry "BAD"; entry "MSFT"] world0).
Proof.
  apply (scorer_called_once_per_entry scorer
           [entry "AAPL"; entry "BAD"; entry "MSFT"] world0).
  apply (bool_decide_unpack _). vm_compute. exact I.
Defined.

(** C5 as stated fails on a batch that holds a symbol twice: the symbol
    is passed to the scorer twice. *)
Lemma duplicate_symbol_scored_twice :
  calls_during scorer [entry "AAPL"; entry "AAPL"] world0 = ["AAPL"; "AAPL"]
  ∧ ¬ NoDup (calls_during scorer [entry "AAPL"; entry "AAPL"] world0).
Proof.
  assert (calls_during scorer [entry "AAPL"; entry "AAPL"] world0
          = ["AAPL"; "AAPL"]) as -> by (vm_compute; reflexivity).
  split; [done |]. intros Hnodup. apply NoDup_cons in Hnodup as [Hnotin _].
  apply Hnotin. by left.
Qed.

(** C6 on a batch whose second entry gets a message string from the
    scorer. *)
Lemma non_dict_result_is_skipped_witness :
  (analyze_earnings_plays scorer
     [entry "AAPL"; entry "NOOPT"; entry "MSFT"] world0).1
  = (analyze_earnings_plays scorer [entry "AAPL"; entry "MSFT"] world0).1.
Proof.
  apply (non_dict_result_is_skipped scorer [entry "AAPL"] (entry "NOOPT")
           [entry "MSFT"] world0 world0
           [Return (signals true true true (PStr "5.2%"))]
           [Return (signals true false true (PStr "3.1%"))]
           (PStr "No options found."));
    vm_compute; reflexivity.
Defined.

(** C6 as stated fails on a dict that is not a well-formed record: the
    empty dict is not skipped, its entry is added to the error list. *)
Lemma malformed_dict_is_reported :
  well_formed (PDict ∅) = false
  ∧ (scorer "EMPTY" 0).1 = Return (PDict ∅)
  ∧ (analyze_earnings_plays scorer [entry "EMPTY"] world0).1
    = Return (mkRun [] [] [] [("EMPTY", "'avg_volume'")]).
Proof. vm_compute. done. Qed.

(** C7 with the rule off and with no rules, on a disk without the file. *)
Lemma filter_stocks_identity_witness :
  (filter_stocks candidates (Some static_list_off) empty_disk
   = (Return candidates, empty_disk)
   ∧ open_log
       (filter_stocks candidates (Some static_list_off) empty_disk).2
     = open_log empty_disk)
  ∧ (filter_stocks candidates None empty_disk = (Return candidates, empty_disk)
     ∧ open_log (filter_stocks candidates None empty_disk).2
       = open_log empty_disk).
Proof.
  split.
  - apply (filter_stocks_identity candidates (Some static_list_off)).
    right. vm_compute. reflexivity.
  - by apply (filter_stocks_identity candidates None).
Defined.

(** C8 on a date written with slashes. *)
Lemma malformed_date_yields_nothing_witness :
  ∃ w',
    get_earnings_for_date strptime_Ymd strftime_bdY calendar
      (Some "07/24/2025") world0 = (Return [], w')
    ∧ calendar_queries w' = calendar_queries world0
    ∧ calendar_state w' = calendar_state world0
    ∧ stdout w' = (stdout world0 ++ [String.append invalid_date_message nl])%list.
Proof.
  apply (malformed_date_yields_nothing strptime_Ymd strftime_bdY calendar
           "07/24/2025"
           (mkExn ValueError
              "time data '07/24/2025' does not match format '%Y-%m-%d'"));
    vm_compute; reflexivity.
Defined.

(** C9 on a disk without the file and on a disk where it cannot be read. *)
Lemma filter_stocks_propagates_witness :
  (∃ e fs',
     filter_stocks candidates (Some static_list_on) empty_disk = (Raise e, fs')
     ∧ (exn_class e = FileNotFoundError ∨ exn_class e = PermissionError)
     ∧ ∀ kept,
         (filter_stocks candidates (Some static_list_on) empty_disk).1
         ≠ Return kept)
  ∧ (∃ e fs',
       filter_stocks candidates (Some static_list_on) locked_disk
       = (Raise e, fs')
       ∧ (exn_class e = FileNotFoundError ∨ exn_class e = PermissionError)
       ∧ ∀ kept,
           (filter_stocks candidates (Some static_list_on) locked_disk).1
           ≠ Return kept).
Proof.
  split.
  - apply filter_stocks_propagates; [| left]; vm_compute; reflexivity.
  - apply filter_stocks_propagates; [| right]; vm_compute; reflexivity.
Defined.

(** C10 on the sample file: padded line, blank line, last line without a
    line end. *)
Lemma get_static_stocks_stripped_witness :
  (get_static_stocks disk).1 = Return ["AAPL"; "MSFT"; ""; "TSLA"]
  ∧ ∃ kept, (filter_stocks candidates (Some static_list_on) disk).1
            = Return kept
            ∧ entry "MSFT" ∈ kept ∧ entry "" ∈ kept.
Proof.
  destruct (get_static_stocks_stripped allow_list_text disk)
    as (allow & fs' & Hload & _ & _ & Hfilter); [vm_compute; reflexivity |].
  destruct (Hfilter candidates static_list_on) as (kept & Hrun & Hiff & Hblank);
    [vm_compute; reflexivity |].
  split; [vm_compute; reflexivity |].
  exists kept. rewrite Hrun. split; [done |]. split.
  - apply Hiff. split; [unfold candidates; repeat constructor |].
    exists ("  MSFT " ++ nl). split.
    + apply (bool_decide_unpack _). vm_compute. exact I.
    + exists "  ", (" " ++ nl). repeat split; vm_compute; reflexivity.
  - apply (Hblank (entry "") nl); try (vm_compute; reflexivity).
    + unfold candidates. repeat constructor.
    + apply (bool_decide_unpack _). vm_compute. exact I.
Defined.

End sample_runs.

(** * Further properties of the code *)

(** ** The calendar resolver *)

Section resolver_properties.

Import earnings_scanner pipeline.

Context {Date ScorerState CalendarState : Type}.
Variable strptime_Ymd : string → Result Date.
Variable strftime_bdY : Date → string.
Variable get_earnings_by_date :
  Date → CalendarState → Result DataFrame * CalendarState.

Local Abbreviation World := (World Date ScorerState CalendarState).
Local Abbreviation resolve :=
  (get_earnings_for_date (ScorerState := ScorerState)
     strptime_Ymd strftime_bdY get_earnings_by_date).
Local Abbreviation date_of :=
  (resolved_date (ScorerState := ScorerState)
     (CalendarState := CalendarState) strptime_Ymd).

Implicit Types (w : World) (d : Date) (df : DataFrame).

Lemma resolve_date_some date_str w d :
  date_of date_str w = Some d →
  resolve_date strptime_Ymd strftime_bdY date_str w
  = (Return (Some (d, strftime_bdY d)), w).
Proof.
  unfold resolved_date, resolve_date, try_except, bind, date_today.
  destruct date_str as [s|]; [| by intros [= <-]].
  destruct (strptime_Ymd s); by intros [= <-].
Qed.

Lemma resolve_some date_str w d :
  date_of date_str w = Some d →
  resolve date_str w
  = try_except (fetch_earnings get_earnings_by_date d (strftime_bdY d))
      is_Exception
      (λ e, bind (print (String.append nl
               (String.append "Error fetching earnings data: " (exn_str e))))
              (λ _, ret [])) w.
Proof.
  intros Hdate. unfold get_earnings_for_date, bind.
  by rewrite (resolve_date_some _ _ _ Hdate).
Qed.

(** The loop over the rows makes one entry per row, in row order. *)
Lemma rows_to_tickers_map df : rows_to_tickers df = row_entry <$> df_rows df.
Proof.
  unfold rows_to_tickers.
  enough (∀ acc : list Entry,
            foldl (λ (tickers : list Entry) '(symbol, row),
                     (tickers ++ [mkEntry symbol
                        (series_get row "time" (PStr "time-not-supplied"))])%list)
              acc (df_rows df)
            = (acc ++ (row_entry <$> df_rows df))%list) as H by apply (H []).
  induction (df_rows df) as [|[sym row] rows IH]; intros acc; simpl.
  - by rewrite app_nil_r.
  - by rewrite IH, <- app_assoc.
Qed.

(** What the fetch does to the world apart from the output: one query,
    for the date given, and nothing else. *)
Lemma fetch_frame d text w :
  let run := try_except (fetch_earnings get_earnings_by_date d text)
               is_Exception
               (λ e, bind (print (String.append nl
                        (String.append "Error fetching earnings data: "
                           (exn_str e))))
                       (λ _, ret [])) w in
  calendar_queries run.2 = (calendar_queries w ++ [d])%list
  ∧ calendar_state run.2 = (get_earnings_by_date d (calendar_state w)).2
  ∧ scorer_state run.2 = scorer_state w
  ∧ scorer_calls run.2 = scorer_calls w
  ∧ slept run.2 = slept w
  ∧ today run.2 = today w
  ∧ match run.1 with
    | Return _ => True
    | Raise e => is_Exception e = false
    end.
Proof.
  destruct w as [ss sc sl cs cq td out]. run_world.
  destruct (get_earnings_by_date d cs) as [[df|e] c']; run_world.
  - destruct (df_empty df); run_world; [done |].
    destruct (negb _); run_world; done.
  - destruct (is_Exception e) eqn:He; run_world; done.
Qed.

(** X1. The table that the calendar returns becomes the entries: when it
    has rows and columns, the result holds one entry per row, in row
    order, with the row's label as symbol and its time cell, or
    "time-not-supplied" when the row has none; the result is not empty,
    and the two lines written are the fetch line and the count. *)
Theorem calendar_rows_become_entries date_str w d df c' :
  date_of date_str w = Some d →
  get_earnings_by_date d (calendar_state w) = (Return df, c') →
  df_empty df = false →
  ∃ w',
    resolve date_str w = (Return (row_entry <$> df_rows df), w')
    ∧ row_entry <$> df_rows df ≠ []
    ∧ length (row_entry <$> df_rows df) = length (df_rows df)
    ∧ stdout w'
      = (stdout w
         ++ [String.append
               (String.append "Fetching earnings for "
                  (String.append (strftime_bdY d) "...")) nl;
             String.append
               (String.append "Successfully found "
                  (String.append (pretty (length (df_rows df)))
                     (String.append " earnings reports for "
                        (strftime_bdY d)))) nl])%list.
Proof.
  intros Hdate Hcal Hne.
  assert (df_rows df ≠ []) as Hrows.
  { intros Hnil. unfold df_empty in Hne. by rewrite Hnil in Hne. }
  unfold get_earnings_for_date, bind.
  rewrite (resolve_date_some _ _ _ Hdate).
  destruct w as [ss sc sl cs cq td out]. simpl in Hcal. run_world.
  rewrite Hcal. run_world.
  rewrite Hne, rows_to_tickers_map, length_fmap.
  destruct (df_rows df) as [|row rows] eqn:Hdf; [done |]. run_world.
  eexists. split; [reflexivity |]. do 2 (split; [done |]).
  by rewrite <- app_assoc.
Qed.

(** X2. A table without rows, and also a table with rows but without
    columns, yields no entries: the function returns the empty list and
    writes the fetch line and the five lines of the diagnosis. *)
Theorem empty_table_yields_nothing date_str w d df c' :
  date_of date_str w = Some d →
  get_earnings_by_date d (calendar_state w) = (Return df, c') →
  df_rows df = [] ∨ df_columns df = [] →
  ∃ w',
    resolve date_str w = (Return [], w')
    ∧ stdout w'
      = (stdout w
         ++ [String.append
               (String.append "Fetching earnings for "
                  (String.append (strftime_bdY d) "...")) nl;
             String.append
               (String.append nl
                  (String.append "No earnings data found for "
                     (strftime_bdY d))) nl;
             String.append "This could be because:" nl;
             String.append "1. The market is closed on this date" nl;
             String.append "2. Earnings data isn't yet available" nl;
             String.append "3. The date is too far in future" nl])%list.
Proof.
  intros Hdate Hcal Hempty.
  assert (df_empty df = true) as He.
  { unfold df_empty. destruct Hempty as [-> | ->]; simpl; [done |].
    by rewrite orb_true_r. }
  unfold get_earnings_for_date, bind.
  rewrite (resolve_date_some _ _ _ Hdate).
  destruct w as [ss sc sl cs cq td out]. simpl in Hcal. run_world.
  rewrite Hcal. run_world.
  rewrite He. run_world.
  eexists. split; [reflexivity |]. by rewrite <- !app_assoc.
Qed.

(** X3. A failure of the calendar source does not leave the resolver: the
    function returns the empty list and writes one line with the
    failure's message. *)
Theorem calendar_failure_yields_nothing date_str w d e c' :
  date_of date_str w = Some d →
  get_earnings_by_date d (calendar_state w) = (Raise e, c') →
  is_Exception e = true →
  ∃ w',
    resolve date_str w = (Return [], w')
    ∧ calendar_queries w' = (calendar_queries w ++ [d])%list
    ∧ stdout w'
      = (stdout w
         ++ [String.append
               (String.append nl
                  (String.append "Error fetching earnings data: " (exn_str e)))
               nl])%list.
Proof.
  intros Hdate Hcal Hexn.
  unfold get_earnings_for_date, bind.
  rewrite (resolve_date_some _ _ _ Hdate).
  destruct w as [ss sc sl cs cq td out]. simpl in Hcal. run_world.
  rewrite Hcal. run_world.
  rewrite Hexn. run_world. by eexists.
Qed.

(** What any call of the resolver does to the world, the output apart. *)
Lemma resolve_frame date_str w :
  calendar_queries (resolve date_str w).2
  = (calendar_queries w ++ option_list (date_of date_str w))%list
  ∧ scorer_state (resolve date_str w).2 = scorer_state w
  ∧ scorer_calls (resolve date_str w).2 = scorer_calls w
  ∧ slept (resolve date_str w).2 = slept w
  ∧ today (resolve date_str w).2 = today w.
Proof.
  destruct (date_of date_str w) as [d|] eqn:Hdate.
  - rewrite (resolve_some _ _ _ Hdate).
    destruct (fetch_frame d (strftime_bdY d) w)
      as (Hq & _ & Hs & Hc & Hsl & Ht & _).
    simpl in *. by rewrite Hq, Hs, Hc, Hsl, Ht.
  - destruct date_str as [s|]; [| done].
    unfold resolved_date in Hdate.
    unfold get_earnings_for_date, resolve_date, try_except, bind.
    destruct (strptime_Ymd s) as [d|e]; [done |].
    destruct (is_ValueError e); simpl; by rewrite app_nil_r.
Qed.

(** X4. Whatever the date string, the calendar and the world, the
    resolver asks the calendar at most once: once, for the date it settled
    on, when there is one, and not at all otherwise; and it never calls
    the scorer, sleeps or moves the clock. *)
Theorem resolver_asks_once date_str w :
  calendar_queries
    (get_earnings_for_date strptime_Ymd strftime_bdY get_earnings_by_date
       date_str w).2
  = (calendar_queries w
     ++ option_list (resolved_date strptime_Ymd date_str w))%list
  ∧ scorer_state (resolve date_str w).2 = scorer_state w
  ∧ scorer_calls (resolve date_str w).2 = scorer_calls w
  ∧ slept (resolve date_str w).2 = slept w
  ∧ today (resolve date_str w).2 = today w.
Proof. apply resolve_frame. Qed.

(** X5. With a date library whose parse fails with [ValueError] only, the
    resolver raises no failure, whatever the input and whatever the
    calendar source does: it returns a list, or lets through a signal that
    is not an [Exception]. *)
Theorem resolver_raises_no_failure date_str w :
  (∀ s e, strptime_Ymd s = Raise e → is_ValueError e = true) →
  match (resolve date_str w).1 with
  | Return _ => True
  | Raise e => is_Exception e = false
  end.
Proof.
  intros Hparse.
  destruct (date_of date_str w) as [d|] eqn:Hdate.
  - rewrite (resolve_some _ _ _ Hdate).
    by destruct (fetch_frame d (strftime_bdY d) w) as (_ & _ & _ & _ & _ & _ & H).
  - destruct date_str as [s|]; [| done].
    unfold resolved_date in Hdate.
    unfold get_earnings_for_date, resolve_date, try_except, bind.
    destruct (strptime_Ymd s) as [d|e] eqn:Hs; [done |].
    by rewrite (Hparse s e Hs).
Qed.

End resolver_properties.

(** ** The play analyzer, further *)

Section analyzer_properties.

Import earnings_scanner pipeline.

Context {Date ScorerState CalendarState : Type}.
Variable compute_recommendation :
  string → ScorerState → Result PyVal * ScorerState.

Local Abbreviation World := (World Date ScorerState CalendarState).
Local Abbreviation analyze :=
  (analyze_earnings_plays (Date := Date) (CalendarState := CalendarState)
     compute_recommendation).
Local Abbreviation step :=
  (analyze_step (Date := Date) (CalendarState := CalendarState)
     compute_recommendation).
Local Abbreviation outcomes_of := (scorer_outcomes compute_recommendation).
Local Abbreviation state_after := (scorer_state_after compute_recommendation).

Implicit Types (tickers before after : list Entry) (t X : Entry) (w : World)
  (lists r : RunResult) (o : Result PyVal) (d : gmap string PyVal)
  (scored : list (Entry * Result PyVal)).

(** *** One iteration, with its world *)

Lemma analyze_step_world total lists idx t w o s' :
  compute_recommendation (symbol t) (scorer_state w) = (o, s') →
  (step total lists (idx, t) w).2
  = mkWorld s' (scorer_calls w ++ [symbol t]) (slept w + sleep_after o)
      (calendar_state w) (calendar_queries w) (today w)
      (stdout w ++ [progress_chunk total idx t]).
Proof.
  intros Hcall.
  unfold analyze_step, score_and_place, try_except, bind, print_end, modify,
    call_scorer, sleep, subscript, progress_chunk.
  simpl. rewrite Hcall.
  destruct o as [v|e]; simpl.
  - destruct v as [| | | |d]; simpl; try done.
    unfold ret, raise. repeat (case_lookup; simpl; try done).
  - rewrite Nat.add_0_r. by destruct (is_Exception e).
Qed.

Lemma outcomes_cons_inv x symbols s o outs :
  outcomes_of (x :: symbols) s = o :: outs →
  ∃ s', compute_recommendation x s = (o, s') ∧ outcomes_of symbols s' = outs.
Proof.
  simpl. destruct (compute_recommendation x s) as [o' s'].
  intros [= -> <-]. by exists s'.
Qed.

Lemma outcomes_app symbols1 symbols2 s :
  outcomes_of (symbols1 ++ symbols2) s
  = (outcomes_of symbols1 s
     ++ outcomes_of symbols2 (state_after symbols1 s))%list.
Proof.
  revert s. induction symbols1 as [|x symbols1 IH]; intros s; [done |].
  simpl. destruct (compute_recommendation x s) as [o s']. simpl.
  by rewrite IH.
Qed.

(** An outcome that does not stop the run is settled. *)
Lemma settle_returns t o lists :
  stops_run o = false → ∃ lists', settle t o lists = Return lists'.
Proof.
  unfold settle. destruct o as [v|e]; simpl.
  - intros _. destruct v as [| | | |d]; try by eexists.
    repeat case_lookup; by eexists.
  - intros He. apply negb_false_iff in He. rewrite He. by eexists.
Qed.

(** *** The world after a run that returns *)

Lemma analyze_loop_world total tickers start lists w r w' :
  for_each (step total) (enumerate tickers start) lists w = (Return r, w') →
  scorer_state w' = state_after (symbol <$> tickers) (scorer_state w)
  ∧ slept w'
    = slept w
      + sum_list (sleep_after
                  <$> outcomes_of (symbol <$> tickers) (scorer_state w))
  ∧ stdout w'
    = (stdout w
       ++ ((λ p, progress_chunk total p.1 p.2) <$> enumerate tickers start))%list
  ∧ calendar_state w' = calendar_state w
  ∧ calendar_queries w' = calendar_queries w
  ∧ today w' = today w.
Proof.
  revert start lists w.
  induction tickers as [|t tickers IH]; intros start lists w.
  - intros [= <- <-]. simpl. by rewrite Nat.add_0_r, app_nil_r.
  - destruct (compute_recommendation (symbol t) (scorer_state w))
      as [o s'] eqn:Hcall.
    pose proof (analyze_step_world total lists start t w o s' Hcall) as Hw.
    destruct (analyze_step_settle compute_recommendation total lists start
                t w o s' Hcall) as (w1 & Hstep & _).
    rewrite Hstep in Hw. simpl in Hw. subst w1.
    rewrite enumerate_cons, for_each_cons, Hstep.
    destruct (settle t o lists) as [lists'|e]; [| done].
    intros Hrun. apply IH in Hrun as (Hs & Hsl & Hout & Hc & Hq & Ht).
    simpl in Hs, Hsl, Hout, Hc, Hq, Ht.
    rewrite fmap_cons.
    rewrite (scorer_outcomes_cons compute_recommendation _ _ _ _ _ Hcall).
    simpl. rewrite Hcall. simpl.
    rewrite Hs, Hsl, Hout, Hc, Hq, Ht, <- app_assoc. repeat split; try done.
    symmetry. apply Nat.add_assoc.
Qed.

Lemma analyze_world tickers w r w' :
  analyze tickers w = (Return r, w') →
  scorer_state w' = state_after (symbol <$> tickers) (scorer_state w)
  ∧ slept w'
    = slept w
      + sum_list (sleep_after
                  <$> outcomes_of (symbol <$> tickers) (scorer_state w))
  ∧ stdout w'
    = (stdout w
       ++ ((λ p, progress_chunk (length tickers) p.1 p.2)
           <$> enumerate tickers 1)
       ++ [String.append nl nl])%list
  ∧ calendar_state w' = calendar_state w
  ∧ calendar_queries w' = calendar_queries w
  ∧ today w' = today w.
Proof.
  unfold analyze_earnings_plays, bind.
  destruct (for_each _ _ _ w) as [[lists|e] w1] eqn:Hloop; [| done].
  apply analyze_loop_world in Hloop as (Hs & Hsl & Hout & Hc & Hq & Ht).
  unfold print, print_end, modify, ret. simpl. intros [= <- <-]. simpl.
  by rewrite Hout, <- app_assoc.
Qed.

Lemma sum_sleep_le (outs : list (Result PyVal)) :
  (sum_list (sleep_after <$> outs) ≤ length outs)%nat.
Proof. induction outs as [|[v|e] outs IH]; csimpl in *; lia. Qed.

Lemma sum_gain_le (outs : list (Result PyVal)) :
  (sum_list (lists_gain <$> outs) ≤ length outs)%nat.
Proof.
  induction outs as [|[v|e] outs IH]; csimpl in *; [lia | | lia].
  destruct (isinstance_dict v); lia.
Qed.

(** X6. The throttle: a run that returns has slept one second for each
    scorer call that returned, and not at all for a call that raised; so
    never more seconds than the batch has entries. *)
Theorem analyzer_sleeps_after_each_return tickers w r w' :
  analyze tickers w = (Return r, w') →
  slept w'
  = slept w
    + sum_list (sleep_after
                <$> outcomes_of (symbol <$> tickers) (scorer_state w))
  ∧ (slept w' ≤ slept w + length tickers)%nat.
Proof.
  intros Hrun. apply analyze_world in Hrun as (_ & Hsl & _).
  split; [done |]. rewrite Hsl. apply Nat.add_le_mono_l.
  rewrite <- (length_fmap symbol tickers),
    <- (outcomes_length compute_recommendation _ (scorer_state w)).
  apply sum_sleep_le.
Qed.

(** X7. Progress: a run that returns has written one chunk per entry,
    in batch order, that names the entry's symbol and its number, counted
    from 1, out of the length of the batch; then one chunk of two line
    ends; and nothing else. *)
Theorem analyzer_reports_progress tickers w r w' :
  analyze tickers w = (Return r, w') →
  stdout w'
  = (stdout w
     ++ ((λ p, progress_chunk (length tickers) p.1 p.2)
         <$> zip (seq 1 (length tickers)) tickers)
     ++ [String.append nl nl])%list.
Proof. intros Hrun. by apply analyze_world in Hrun as (_ & _ & Hout & _). Qed.

(** X8. A dict that lacks one of the four keys is reported, not
    classified: the iteration appends to [errors] the entry's symbol with
    the [KeyError] text of the first key, in reading order, that the dict
    lacks, and leaves the three buckets as they are. *)
Theorem missing_key_is_reported total lists idx t w d s' k :
  compute_recommendation (symbol t) (scorer_state w) = (Return (PDict d), s') →
  k ∈ required_keys →
  d !! k = None →
  ∃ present k1 rest,
    required_keys = (present ++ k1 :: rest)%list
    ∧ Forall (λ k0, is_Some (d !! k0)) present
    ∧ d !! k1 = None
    ∧ ∃ lists',
        (step total lists (idx, t) w).1 = Return lists'
        ∧ recommended lists' = recommended lists
        ∧ consider lists' = consider lists
        ∧ avoid lists' = avoid lists
        ∧ errors lists'
          = (errors lists
             ++ [(symbol t, String.append "'" (String.append k1 "'"))])%list.
Proof.
  intros Hcall Hk Hnone.
  destruct (analyze_step_settle compute_recommendation total lists idx t w
              _ _ Hcall) as (w' & -> & _).
  unfold settle, key_error_str. simpl.
  destruct (d !! "avg_volume") as [a|] eqn:Ha.
  2:{ exists [], "avg_volume", ["iv30_rv30"; "ts_slope_0_45"; "expected_move"].
      split_and!; [done.. |]. by eexists. }
  destruct (d !! "iv30_rv30") as [b|] eqn:Hb.
  2:{ exists ["avg_volume"], "iv30_rv30", ["ts_slope_0_45"; "expected_move"].
      split_and!; [done | | done |]; [| by eexists].
      repeat constructor. by rewrite Ha. }
  destruct (d !! "ts_slope_0_45") as [c|] eqn:Hc.
  2:{ exists ["avg_volume"; "iv30_rv30"], "ts_slope_0_45", ["expected_move"].
      split_and!; [done | | done |]; [| by eexists].
      repeat constructor; by rewrite ?Ha, ?Hb. }
  destruct (d !! "expected_move") as [move|] eqn:Hmove.
  2:{ exists ["avg_volume"; "iv30_rv30"; "ts_slope_0_45"], "expected_move", [].
      split_and!; [done | | done |]; [| by eexists].
      repeat constructor; by rewrite ?Ha, ?Hb, ?Hc. }
  exfalso. unfold required_keys in Hk.
  repeat (apply elem_of_cons in Hk as [-> | Hk]; [congruence |]).
  by apply elem_of_nil in Hk.
Qed.

(** X9. Signals that are not booleans are classified by their truth
    value: with the four keys present, whatever their values, the entry
    is added at the end of [recommended] when the three signals are all
    true as Python tests them, of [consider] when the slope is true and
    exactly one of the other two is, and of [avoid] otherwise; the other
    two buckets and [errors] are as they were. *)
Theorem classification_by_truth_value total lists idx t w d s' va vb vc move :
  compute_recommendation (symbol t) (scorer_state w) = (Return (PDict d), s') →
  d !! "avg_volume" = Some va →
  d !! "iv30_rv30" = Some vb →
  d !! "ts_slope_0_45" = Some vc →
  d !! "expected_move" = Some move →
  ∃ lists',
    (step total lists (idx, t) w).1 = Return lists'
    ∧ recommended lists'
      = (if truthy va && truthy vb && truthy vc
         then recommended lists
              ++ [mkCategorized (symbol t) (time t) move "Recommended"]
         else recommended lists)%list
    ∧ consider lists'
      = (if truthy vc && xorb (truthy va) (truthy vb)
         then consider lists
              ++ [mkCategorized (symbol t) (time t) move "Consider"]
         else consider lists)%list
    ∧ avoid lists'
      = (if negb (truthy va && truthy vb && truthy vc)
            && negb (truthy vc && xorb (truthy va) (truthy vb))
         then avoid lists ++ [mkCategorized (symbol t) (time t) move "Avoid"]
         else avoid lists)%list
    ∧ errors lists' = errors lists.
Proof.
  intros Hcall Ha Hb Hc Hmove.
  destruct (analyze_step_settle compute_recommendation total lists idx t w
              _ _ Hcall) as (w' & -> & _).
  unfold settle. rewrite Ha, Hb, Hc, Hmove, recommendation_of_truthy.
  eexists. split; [reflexivity |].
  by destruct (truthy va), (truthy vb), (truthy vc).
Qed.

Lemma settle_all_returns scored lists :
  Forall (λ p, stops_run p.2 = false) scored →
  ∃ r, settle_all scored lists = Return r.
Proof.
  intros Hall. revert lists.
  induction Hall as [|[t o] scored Ho _ IH]; intros lists; [by eexists |].
  cbn [settle_all]. destruct (settle_returns t o lists Ho) as (lists' & ->).
  apply IH.
Qed.

Lemma loop_calls_until_stop total before X after start lists w outs1 outs2 e :
  outcomes_of (symbol <$> (before ++ X :: after)%list) (scorer_state w)
  = (outs1 ++ Raise e :: outs2)%list →
  length outs1 = length before →
  is_Exception e = false →
  Forall (λ o, stops_run o = false) outs1 →
  scorer_calls (for_each (step total)
                  (enumerate (before ++ X :: after)%list start) lists w).2
  = (scorer_calls w ++ (symbol <$> (before ++ [X])%list))%list.
Proof.
  intros Hout Hlen He Hall. revert outs1 start lists w Hout Hlen Hall.
  induction before as [|t before IH]; intros outs1 start lists w Hout Hlen Hall.
  - destruct outs1; [| done]. simpl app in *. rewrite fmap_cons in Hout.
    apply outcomes_cons_inv in Hout as (s' & Hcall & _).
    destruct (analyze_step_settle compute_recommendation total lists start
                X w _ _ Hcall) as (w1 & Hstep & _ & Hcalls).
    rewrite enumerate_cons, for_each_cons, Hstep. unfold settle. by rewrite He.
  - destruct outs1 as [|o outs1]; [done |].
    rewrite <- !app_comm_cons, fmap_cons in Hout.
    apply outcomes_cons_inv in Hout as (s' & Hcall & Hrest).
    apply Forall_cons in Hall as [Ho Hall].
    destruct (analyze_step_settle compute_recommendation total lists start
                t w _ _ Hcall) as (w1 & Hstep & Hstate & Hcalls).
    rewrite <- !app_comm_cons, enumerate_cons, for_each_cons, Hstep.
    destruct (settle_returns t o lists Ho) as (lists' & ->).
    rewrite (IH outs1); [| by rewrite Hstate | by injection Hlen | done].
    by rewrite Hcalls, fmap_cons, <- app_assoc.
Qed.

(** X10. A signal that is not an [Exception] (an interrupt, an exit)
    stops the run: when it is raised by the scorer call for [X], the
    analyzer raises it and returns nothing, and the scorer has been called
    for the entries up to [X] and for none after it. *)
Theorem interrupt_stops_the_run before X after w outs1 outs2 e :
  outcomes_of (symbol <$> (before ++ X :: after)%list) (scorer_state w)
  = (outs1 ++ Raise e :: outs2)%list →
  length outs1 = length before →
  is_Exception e = false →
  Forall (λ o, stops_run o = false) outs1 →
  (analyze (before ++ X :: after)%list w).1 = Raise e
  ∧ calls_during compute_recommendation (before ++ X :: after)%list w
    = symbol <$> (before ++ [X])%list.
Proof.
  intros Hout Hlen He Hall. split.
  - destruct (zip_insert before after X outs1 outs2 (Raise e) Hlen) as [Hzip _].
    rewrite (analyze_settle_all compute_recommendation), Hout, Hzip,
      settle_all_app.
    destruct (settle_all_returns (zip before outs1) no_results) as (r & ->).
    { apply Forall_forall. intros [t o] Hin.
      apply (proj1 (Forall_forall _ _) Hall), (elem_of_zip_r _ _ _ _ Hin). }
    cbn [settle_all settle]. by rewrite He.
  - unfold calls_during, analyze_earnings_plays, bind.
    pose proof (loop_calls_until_stop (length (before ++ X :: after)%list)
                  before X after 1 no_results w outs1 outs2 e
                  Hout Hlen He Hall) as Hcalls.
    destruct (for_each _ _ _ w) as [[lists|e'] w1]; simpl in *;
      by rewrite Hcalls, drop_app_length.
Qed.

(** *** What the lists hold after any run that returns *)

(** What one settled outcome adds to empty lists. *)
Lemma settle_one t o added :
  settle t o no_results = Return added →
  Forall (labelled "Recommended") (recommended added)
  ∧ Forall (labelled "Consider") (consider added)
  ∧ Forall (labelled "Avoid") (avoid added)
  ∧ entry_of <$> recommended added `sublist_of` [t]
  ∧ entry_of <$> consider added `sublist_of` [t]
  ∧ entry_of <$> avoid added `sublist_of` [t]
  ∧ (errors added).*1 `sublist_of` [symbol t]
  ∧ total_items added = lists_gain o.
Proof.
  destruct t as [sym tm]. unfold settle. destruct o as [v|e].
  - destruct v as [| | | |d];
      try (intros [= <-]; repeat split; simpl; try done; apply sublist_nil_l).
    repeat case_lookup; simpl;
      try (intros [= <-]; repeat split; simpl; try done;
           apply sublist_nil_l).
    intros [= <-]. unfold place. simpl.
    match goal with
    | |- context [recommendation_of ?a ?b ?c] =>
        destruct (recommendation_of_cases a b c) as [Hl|[Hl|Hl]]
    end; rewrite Hl; simpl;
      (repeat split; simpl; try done; try apply sublist_nil_l;
       by repeat constructor).
  - destruct (is_Exception e); [| done].
    intros [= <-]. repeat split; simpl; try done; apply sublist_nil_l.
Qed.

Lemma settle_all_holds scored added :
  settle_all scored no_results = Return added →
  Forall (labelled "Recommended") (recommended added)
  ∧ Forall (labelled "Consider") (consider added)
  ∧ Forall (labelled "Avoid") (avoid added)
  ∧ entry_of <$> recommended added `sublist_of` scored.*1
  ∧ entry_of <$> consider added `sublist_of` scored.*1
  ∧ entry_of <$> avoid added `sublist_of` scored.*1
  ∧ (errors added).*1 `sublist_of` symbol <$> scored.*1
  ∧ total_items added = sum_list (lists_gain <$> scored.*2).
Proof.
  revert added. induction scored as [|[t o] scored IH]; intros added.
  - intros [= <-]. repeat split; simpl; done.
  - cbn [settle_all].
    destruct (settle t o no_results) as [one|] eqn:Hone; [| done].
    rewrite settle_all_merge.
    destruct (settle_all scored no_results) as [rest|]; [| done].
    intros [= <-].
    destruct (settle_one t o one Hone)
      as (Hr1 & Hc1 & Ha1 & Sr1 & Sc1 & Sa1 & Se1 & Hn1).
    destruct (IH rest eq_refl)
      as (Hr2 & Hc2 & Ha2 & Sr2 & Sc2 & Sa2 & Se2 & Hn2).
    unfold merge, total_items in *. cbn [recommended consider avoid errors].
    rewrite !fmap_cons, !fmap_app, !length_app, !Forall_app.
    cbn [fst snd].
    replace (sum_list (lists_gain o :: (lists_gain <$> scored.*2)))
      with (lists_gain o + sum_list (lists_gain <$> scored.*2)) by done.
    repeat split; try done.
    + exact (sublist_app _ [t] _ _ Sr1 Sr2).
    + exact (sublist_app _ [t] _ _ Sc1 Sc2).
    + exact (sublist_app _ [t] _ _ Sa1 Sa2).
    + exact (sublist_app _ [symbol t] _ _ Se1 Se2).
    + rewrite <- Hn1, <- Hn2. lia.
Qed.

Lemma analyze_scored tickers w r :
  (analyze tickers w).1 = Return r →
  ∃ scored,
    settle_all scored no_results = Return r
    ∧ scored.*1 = tickers
    ∧ scored.*2 = outcomes_of (symbol <$> tickers) (scorer_state w).
Proof.
  rewrite (analyze_settle_all compute_recommendation). intros Hrun.
  eexists. split; [exact Hrun |].
  assert (length tickers
          = length (outcomes_of (symbol <$> tickers) (scorer_state w))) as Hlen.
  { by rewrite (outcomes_length compute_recommendation), length_fmap. }
  split; [apply fst_zip | apply snd_zip]; lia.
Qed.

(** X11. In any run that returns, whatever the scorer answered, every
    item of [recommended] carries the label "Recommended", every item of
    [consider] the label "Consider" and every item of [avoid] the label
    "Avoid". *)
Theorem buckets_carry_their_label tickers w r :
  (analyze tickers w).1 = Return r →
  Forall (labelled "Recommended") (recommended r)
  ∧ Forall (labelled "Consider") (consider r)
  ∧ Forall (labelled "Avoid") (avoid r).
Proof.
  intros (scored & Hrun & _)%analyze_scored.
  by destruct (settle_all_holds _ _ Hrun) as (? & ? & ? & _).
Qed.

(** X12. In any run that returns, each bucket, its items read back as
    entries (symbol and time), is a sublist of the batch, and the symbols
    of [errors] are a sublist of the symbols of the batch: nothing is
    invented, nothing is reordered, and no entry is listed more often in a
    list than the batch holds it. *)
Theorem buckets_keep_batch_order tickers w r :
  (analyze tickers w).1 = Return r →
  entry_of <$> recommended r `sublist_of` tickers
  ∧ entry_of <$> consider r `sublist_of` tickers
  ∧ entry_of <$> avoid r `sublist_of` tickers
  ∧ (errors r).*1 `sublist_of` symbol <$> tickers.
Proof.
  intros (scored & Hrun & Hfst & _)%analyze_scored.
  destruct (settle_all_holds _ _ Hrun) as (_ & _ & _ & ? & ? & ? & ? & _).
  by rewrite <- Hfst.
Qed.

(** X13. In any run that returns, the four lists hold one item for each
    scorer call that raised or returned a dict, and none for a call that
    returned something else: never more items than the batch has
    entries. *)
Theorem lists_account_for_the_batch tickers w r :
  (analyze tickers w).1 = Return r →
  total_items r
  = sum_list (lists_gain
              <$> outcomes_of (symbol <$> tickers) (scorer_state w))
  ∧ (total_items r ≤ length tickers)%nat.
Proof.
  intros (scored & Hrun & _ & Hsnd)%analyze_scored.
  destruct (settle_all_holds _ _ Hrun) as (_ & _ & _ & _ & _ & _ & _ & Hn).
  rewrite Hsnd in Hn. split; [done |]. rewrite Hn.
  rewrite <- (length_fmap symbol tickers),
    <- (outcomes_length compute_recommendation _ (scorer_state w)).
  apply sum_gain_le.
Qed.

(** X14. Runs compose: if the run on [tickers1] returns [r1] and leaves
    the world [w1], the run on [tickers1 ++ tickers2] gives what the run
    on [tickers2] from [w1] gives, put after [r1], list by list. *)
Theorem analyze_concatenation tickers1 tickers2 w r1 w1 :
  analyze tickers1 w = (Return r1, w1) →
  (analyze (tickers1 ++ tickers2)%list w).1
  = match (analyze tickers2 w1).1 with
    | Return r2 => Return (merge r1 r2)
    | Raise e => Raise e
    end.
Proof.
  intros Hrun.
  pose proof (analyze_world _ _ _ _ Hrun) as (Hstate & _).
  assert ((analyze tickers1 w).1 = Return r1) as Hfst by by rewrite Hrun.
  rewrite (analyze_settle_all compute_recommendation) in Hfst.
  rewrite !(analyze_settle_all compute_recommendation).
  rewrite fmap_app, outcomes_app, <- Hstate, zip_with_app, settle_all_app, Hfst.
  - apply settle_all_merge.
  - by rewrite (outcomes_length compute_recommendation), length_fmap.
Qed.

End analyzer_properties.

(** ** The eligibility filter, further *)

Section filter_further.

Import utils.

Implicit Types (tickers : list Entry) (t : Entry) (fs : FileSystem)
  (rules : gmap string PyVal) (allow : list string) (s line : string)
  (c : Ascii.ascii).

(** The filter as one case distinction: the rule's truth value, then how
    the load of the list ends. *)
Lemma filter_stocks_run tickers (rules : option (gmap string PyVal)) fs :
  filter_stocks tickers rules fs
  = if truthy (dict_get (default ∅ rules) "use_static_list") then
      match get_static_stocks fs with
      | (Return allow, fs') =>
          (Return (filter (λ t, symbol t ∈ allow) tickers), fs')
      | (Raise e, fs') => (Raise e, fs')
      end
    else (Return tickers, fs).
Proof.
  destruct rules as [rules|]; simpl.
  - destruct (truthy (dict_get rules "use_static_list")) eqn:Hrule.
    + destruct (get_static_stocks fs) as [[allow|e] fs'] eqn:Hload.
      * by apply filter_stocks_on.
      * unfold filter_stocks, bind. by rewrite Hrule, Hload.
    + by apply filter_stocks_falsy.
  - replace (truthy (dict_get ∅ "use_static_list")) with false by done.
    apply filter_stocks_no_rules.
Qed.

Lemma get_static_stocks_log fs :
  (get_static_stocks fs).2 = log_open static_stocks_txt fs.
Proof.
  unfold get_static_stocks, open_read, bind, modify. simpl.
  by destruct (files fs !! static_stocks_txt) as [[content|]|].
Qed.

(** X15. The rule is read by its truth value. A value that Python takes
    for false (also 0, the empty string, [None]) leaves the input as it
    is, with no file opened: on any file system, also one without the
    allow-list file, the call returns its input and the file system is
    the one it was given. A value that Python takes for true (also the
    number 1, also the string "false") turns the filter on: when the
    allow-list loads, the call keeps the entries whose symbol is on it. *)
Theorem filter_rule_by_truth_value tickers rules fs v :
  rules !! "use_static_list" = Some v →
  (truthy v = false →
   filter_stocks tickers (Some rules) fs = (Return tickers, fs))
  ∧ (truthy v = true →
     ∀ allow fs',
       get_static_stocks fs = (Return allow, fs') →
       filter_stocks tickers (Some rules) fs
       = (Return (filter (λ t, symbol t ∈ allow) tickers), fs')).
Proof.
  intros Hrule. rewrite filter_stocks_run. simpl.
  unfold dict_get. rewrite Hrule. simpl.
  split.
  - by intros ->.
  - intros -> allow fs' Hload. by rewrite Hload.
Qed.

(** X16. With the rule on, a call opens the allow-list file exactly once,
    whatever the number of entries and whether the file can be read or
    not; and no call changes the content of the file system. *)
Theorem allow_list_opened_once tickers rules fs :
  truthy (dict_get rules "use_static_list") = true →
  open_log (filter_stocks tickers (Some rules) fs).2
  = (open_log fs ++ [static_stocks_txt])%list
  ∧ files (filter_stocks tickers (Some rules) fs).2 = files fs.
Proof.
  intros Hrule. rewrite filter_stocks_run. simpl. rewrite Hrule.
  pose proof (get_static_stocks_log fs) as Hlog.
  destruct (get_static_stocks fs) as [[allow|e] fs']; simpl in *;
    by rewrite Hlog.
Qed.

(** X17. Filtering is idempotent: with the rule on and the file
    readable, filtering the result again, with the file as it is, gives
    the result again. *)
Theorem filter_stocks_idempotent tickers rules fs content :
  truthy (dict_get rules "use_static_list") = true →
  files fs !! static_stocks_txt = Some (Readable content) →
  ∃ kept fs1,
    filter_stocks tickers (Some rules) fs = (Return kept, fs1)
    ∧ (filter_stocks kept (Some rules) fs1).1 = Return kept.
Proof.
  intros Hrule Hfile.
  rewrite filter_stocks_run. simpl. rewrite Hrule.
  rewrite (get_static_stocks_readable _ _ Hfile).
  eexists _, _. split; [reflexivity |].
  rewrite filter_stocks_run. simpl. rewrite Hrule.
  rewrite (get_static_stocks_readable content); [| done]. simpl. f_equal.
  rewrite list_filter_filter. apply list_filter_iff. tauto.
Qed.

(** X18. The filter works entry by entry: the result for a concatenation
    is the concatenation of the results, whatever the rules, when the
    calls return. *)
Theorem filter_stocks_concatenation tickers1 tickers2
    (rules : option (gmap string PyVal)) fs kept1 kept2 :
  (filter_stocks tickers1 rules fs).1 = Return kept1 →
  (filter_stocks tickers2 rules fs).1 = Return kept2 →
  (filter_stocks (tickers1 ++ tickers2)%list rules fs).1
  = Return (kept1 ++ kept2)%list.
Proof.
  rewrite !filter_stocks_run.
  destruct (truthy _); [| by intros [= <-] [= <-]].
  destruct (get_static_stocks fs) as [[allow|e] fs']; [| done].
  simpl. intros [= <-] [= <-]. by rewrite filter_app.
Qed.

(** *** The characters of the loaded symbols *)

Lemma has_char_app c s1 s2 :
  has_char c (s1 ++ s2) = has_char c s1 || has_char c s2.
Proof.
  induction s1 as [|c1 s1 IH]; [done |].
  rewrite string_app_cons. simpl. by rewrite IH, orb_assoc.
Qed.

Lemma has_char_lstrip c s : has_char c s = false → has_char c (lstrip s) = false.
Proof.
  induction s as [|c1 s IH]; [done |]. simpl.
  destruct (isspace c1); [| done]. intros [_ H]%orb_false_elim. auto.
Qed.

Lemma has_char_rstrip c s : has_char c s = false → has_char c (rstrip s) = false.
Proof.
  induction s as [|c1 s IH]; [done |]. simpl.
  intros [Hc H]%orb_false_elim. specialize (IH H).
  destruct (rstrip s) as [|c2 r].
  - destruct (isspace c1); simpl; [done | by rewrite Hc].
  - simpl in *. by rewrite Hc, IH.
Qed.

Lemma rstrip_app_space s post :
  all_space post = true → rstrip (s ++ post) = rstrip s.
Proof.
  intros Hpost. induction s as [|c s IH].
  - rewrite string_app_nil_l. by apply rstrip_all_space.
  - rewrite string_app_cons. simpl. by rewrite IH.
Qed.

Lemma strip_app_space s post :
  all_space post = true → strip (s ++ post) = strip s.
Proof.
  intros Hpost. unfold strip. induction s as [|c s IH].
  - rewrite string_app_nil_l, <- (string_app_nil_r post).
    by rewrite lstrip_all_space.
  - rewrite string_app_cons. simpl. destruct (isspace c); [done |].
    rewrite <- string_app_cons. by apply rstrip_app_space.
Qed.

Lemma translate_newlines_no_cr s : has_char CR (translate_newlines s) = false.
Proof.
  induction s as [|c s IH]; [done |]. simpl.
  destruct (Ascii.eqb c CR) eqn:Hc.
  - destruct s as [|c' s']; [done |].
    destruct (Ascii.eqb c' LF); [done |]. simpl in *. done.
  - simpl. by rewrite Hc.
Qed.

(** A line of [split_keepends] has its line feed, if any, at its end, and
    no character that the text does not have. *)
Lemma split_keepends_lines c s :
  Forall (λ line,
            (∃ body, has_char LF body = false
                     ∧ (line = body ∨ line = body ++ nl))
            ∧ (has_char c s = false → has_char c line = false))
    (split_keepends s).
Proof.
  induction s as [|c1 s IH]; [constructor |]. simpl.
  destruct (Ascii.eqb c1 LF) eqn:Hc1.
  - constructor.
    + split; [exists ""; auto |].
      intros [Hc _]%orb_false_elim. apply Ascii.eqb_eq in Hc1 as ->.
      unfold nl. cbn [has_char]. by rewrite Hc.
    + eapply Forall_impl; [exact IH |]. simpl.
      intros line [Hbody Hline]. split; [done |].
      intros [_ H]%orb_false_elim. auto.
  - destruct (split_keepends s) as [|l ls].
    + constructor; [| constructor]. split.
      * exists (String c1 ""). simpl. rewrite Hc1. auto.
      * simpl. intros [Hc _]%orb_false_elim. by rewrite Hc.
    + apply Forall_cons in IH as [[(body & Hbody & Hl) Hline] IH].
      constructor.
      * split.
        -- exists (String c1 body). simpl. rewrite Hc1, Hbody.
           split; [done |]. destruct Hl as [-> | ->]; auto.
        -- simpl. intros [Hc H]%orb_false_elim. rewrite Hc. auto.
      * eapply Forall_impl; [exact IH |]. simpl.
        intros line [Hb Hline']. split; [done |].
        intros [_ H]%orb_false_elim. auto.
Qed.

Lemma stripped_line_clean content line :
  line ∈ readlines content →
  trimmed (strip line)
  ∧ has_char LF (strip line) = false
  ∧ has_char CR (strip line) = false.
Proof.
  intros Hline. unfold readlines in Hline.
  split; [by destruct (padded_strip line) as (? & ? & _ & _ & _ & ?) |].
  split.
  - pose proof (split_keepends_lines LF (translate_newlines content)) as Hall.
    apply (proj1 (Forall_forall _ _) Hall) in Hline
      as [(body & Hbody & [-> | ->]) _].
    + by apply has_char_rstrip, has_char_lstrip.
    + rewrite strip_app_space by done.
      by apply has_char_rstrip, has_char_lstrip.
  - pose proof (split_keepends_lines CR (translate_newlines content)) as Hall.
    apply (proj1 (Forall_forall _ _) Hall) in Hline as [_ Hcr].
    apply has_char_rstrip, has_char_lstrip, Hcr, translate_newlines_no_cr.
Qed.

(** X19. The symbols that [get_static_stocks] loads are clean: none
    starts or ends with whitespace and none holds a line feed or a
    carriage return; there is one per line of the file.  So, with the
    rule on, an entry whose symbol is padded or holds a line break never
    passes the filter. *)
Theorem loaded_symbols_are_clean content fs :
  files fs !! static_stocks_txt = Some (Readable content) →
  ∃ allow fs',
    get_static_stocks fs = (Return allow, fs')
    ∧ length allow = length (readlines content)
    ∧ Forall (λ s, trimmed s ∧ has_char LF s = false
                   ∧ has_char CR s = false) allow
    ∧ ∀ tickers rules kept t,
        truthy (dict_get rules "use_static_list") = true →
        (filter_stocks tickers (Some rules) fs).1 = Return kept →
        t ∈ kept →
        trimmed (symbol t) ∧ has_char LF (symbol t) = false
        ∧ has_char CR (symbol t) = false.
Proof.
  intros Hfile. pose proof (get_static_stocks_readable _ _ Hfile) as Hload.
  eexists _, _. split; [exact Hload |].
  split; [by rewrite length_fmap |].
  assert (Forall (λ s, trimmed s ∧ has_char LF s = false
                       ∧ has_char CR s = false)
            (strip <$> readlines content)) as Hclean.
  { apply Forall_fmap, Forall_forall. intros line Hline.
    by apply (stripped_line_clean content). }
  split; [done |].
  intros tickers rules kept t Hrule Hrun Ht.
  rewrite filter_stocks_run in Hrun. simpl in Hrun.
  rewrite Hrule, Hload in Hrun. injection Hrun as <-.
  apply list_elem_of_filter in Ht as [Hin _].
  by apply (proj1 (Forall_forall _ _) Hclean).
Qed.

(** X20. An allow-list file that is there but empty is not a failure:
    with the rule on, the filter returns the empty list, whatever the
    input. *)
Theorem empty_allow_list_keeps_nothing tickers rules fs :
  truthy (dict_get rules "use_static_list") = true →
  files fs !! static_stocks_txt = Some (Readable "") →
  (filter_stocks tickers (Some rules) fs).1 = Return [].
Proof.
  intros Hrule Hfile. rewrite filter_stocks_run. simpl. rewrite Hrule.
  rewrite (get_static_stocks_readable _ _ Hfile). simpl. f_equal.
  induction tickers as [|t tickers IH]; [done |].
  rewrite filter_cons_False; [done |]. apply not_elem_of_nil.
Qed.

End filter_further.

(** ** The report and the command *)

Section pipeline_properties.

Import utils earnings_scanner pipeline.

Context {Date ScorerState CalendarState : Type}.
Variable strptime_Ymd : string → Result Date.
Variable strftime_bdY : Date → string.
Variable compute_recommendation :
  string → ScorerState → Result PyVal * ScorerState.
Variable get_earnings_by_date :
  Date → CalendarState → Result DataFrame * CalendarState.
Variable py_format : PyVal → string.

Local Abbreviation World := (World Date ScorerState CalendarState).
Local Abbreviation resolve :=
  (get_earnings_for_date (ScorerState := ScorerState)
     strptime_Ymd strftime_bdY get_earnings_by_date).
Local Abbreviation analyze :=
  (analyze_earnings_plays (Date := Date) (CalendarState := CalendarState)
     compute_recommendation).
Local Abbreviation report :=
  (print_results (Date := Date) (ScorerState := ScorerState)
     (CalendarState := CalendarState) py_format).
Local Abbreviation command :=
  (main strptime_Ymd strftime_bdY compute_recommendation
     get_earnings_by_date py_format).

Implicit Types (w : World) (fs : FileSystem) (out : list string)
  (bucket : list CategorizedEntry) (found kept : list Entry).

(** *** Writing *)

Lemma write_nil w : write [] w = w.
Proof. destruct w. unfold write. simpl. by rewrite app_nil_r. Qed.

Lemma write_write out1 out2 w :
  write out2 (write out1 w) = write (out1 ++ out2) w.
Proof. unfold write. simpl. by rewrite app_assoc. Qed.

Lemma bind_print {A} text (k : unit → Eff World A) w :
  bind (print text) k w = k tt (write [String.append text nl] w).
Proof. reflexivity. Qed.

Lemma print_write text w :
  print text w = (Return tt, write [String.append text nl] w).
Proof. reflexivity. Qed.

Lemma bind_run {W A B} (m : Eff W A) (k : A → Eff W B) (w w' : W) a :
  m w = (Return a, w') → bind m k w = k a w'.
Proof. intros H. unfold bind. by rewrite H. Qed.

Lemma bind_raise {W A B} (m : Eff W A) (k : A → Eff W B) (w w' : W) e :
  m w = (Raise e, w') → bind m k w = (Raise e, w').
Proof. intros H. unfold bind. by rewrite H. Qed.

(** *** The report *)

Lemma plays_loop_run bucket w :
  ∃ out,
    for_each
      (λ (_ : unit) ticker_info,
         bind (print (String.append nl
                 (String.append "Symbol: "
                    (String.append (ce_symbol ticker_info)
                       (String.append " | Time: "
                          (py_format (ce_time ticker_info)))))))
           (λ _, bind (print (String.append "Expected Move: "
                         (py_format (ce_expected_move ticker_info))))
                   (λ _, print (String.append "Recommendation: "
                                  (ce_recommendation ticker_info)))))
      bucket tt w
    = (Return tt, write out w)
    ∧ length out = 3 * length bucket.
Proof.
  revert w. induction bucket as [|x bucket IH]; intros w.
  - exists []. by rewrite write_nil.
  - rewrite for_each_cons, !bind_print, print_write, !write_write.
    destruct (IH (write
                    ([String.append
                        (String.append nl
                           (String.append "Symbol: "
                              (String.append (ce_symbol x)
                                 (String.append " | Time: "
                                    (py_format (ce_time x)))))) nl] ++
                     [String.append
                        (String.append "Expected Move: "
                           (py_format (ce_expected_move x))) nl] ++
                     [String.append
                        (String.append "Recommendation: "
                           (ce_recommendation x)) nl]) w))
      as (out & -> & Hlen).
    eexists. rewrite write_write. split; [reflexivity |].
    rewrite !length_app, Hlen. simpl. lia.
Qed.

Lemma print_plays_run bucket w :
  ∃ out,
    print_plays py_format bucket w = (Return tt, write out w)
    ∧ length out = bucket_chunks bucket
    ∧ (bucket = [] → out = [String.append "None" nl]).
Proof.
  unfold print_plays. destruct bucket as [|x bucket].
  - rewrite bind_print. by eexists.
  - rewrite (bind_run _ _ w w tt) by done.
    destruct (plays_loop_run (x :: bucket) w) as (out & -> & Hlen).
    exists out. by rewrite Hlen.
Qed.

Lemma errors_loop_run (errors : list (string * string)) w :
  ∃ out,
    for_each (λ (_ : unit) '(symbol, error),
                print (String.append symbol (String.append ": " error)))
      errors tt w
    = (Return tt, write out w)
    ∧ length out = length errors.
Proof.
  revert w. induction errors as [|[symbol error] errors IH]; intros w.
  - exists []. by rewrite write_nil.
  - rewrite for_each_cons, print_write.
    destruct (IH (write [String.append
                           (String.append symbol (String.append ": " error))
                           nl] w)) as (out & -> & Hlen).
    eexists. rewrite write_write. split; [reflexivity |].
    rewrite length_app, Hlen. simpl. lia.
Qed.

Lemma report_run recommended consider errors w :
  ∃ out1 out2 out3,
    report recommended consider errors w
    = (Return tt,
       write (report_head ++ out1 ++ consider_head ++ out2 ++ out3)%list w)
    ∧ length out1 = bucket_chunks recommended
    ∧ (recommended = [] → out1 = [none_line])
    ∧ length out2 = bucket_chunks consider
    ∧ (consider = [] → out2 = [none_line])
    ∧ length out3 = error_chunks errors.
Proof.
  unfold print_results. rewrite !bind_print, !write_write.
  match goal with
  | |- context [bind (print_plays _ recommended) _ ?w0] =>
      destruct (print_plays_run recommended w0)
        as (out1 & Hrun1 & Hlen1 & Hnone1)
  end.
  rewrite (bind_run _ _ _ _ _ Hrun1), !bind_print, !write_write.
  match goal with
  | |- context [bind (print_plays _ consider) _ ?w0] =>
      destruct (print_plays_run consider w0)
        as (out2 & Hrun2 & Hlen2 & Hnone2)
  end.
  rewrite (bind_run _ _ _ _ _ Hrun2), !write_write.
  destruct errors as [|err errors].
  - exists out1, out2, []. unfold ret, report_head, consider_head.
    rewrite app_nil_r, <- !app_assoc. done.
  - rewrite !bind_print, !write_write.
    match goal with
    | |- context [for_each _ (err :: errors) tt ?w0] =>
        destruct (errors_loop_run (err :: errors) w0) as (out3 & -> & Hlen3)
    end.
    exists out1, out2, (errors_head ++ out3)%list.
    rewrite !write_write. unfold report_head, consider_head, errors_head.
    rewrite <- !app_assoc. repeat split; try done.
    rewrite length_app, Hlen3. done.
Qed.

Lemma report_lines_run recommended consider errors w :
  ∃ out, report recommended consider errors w = (Return tt, write out w).
Proof.
  destruct (report_run recommended consider errors w)
    as (out1 & out2 & out3 & H & _).
  by eexists.
Qed.

(** X21. The report always returns and changes nothing but the output.
    It writes the four heading lines, the lines of [recommended], the two
    heading lines of [consider], its lines, and the error section.  A
    bucket gives the one line "None" when it is empty and three lines per
    item otherwise; the error section is empty when there are no errors,
    and has its two heading lines and one line per error otherwise. *)
Theorem report_lines recommended consider errors w :
  ∃ out1 out2 out3,
    report recommended consider errors w
    = (Return tt,
       write (report_head ++ out1 ++ consider_head ++ out2 ++ out3)%list w)
    ∧ length out1 = bucket_chunks recommended
    ∧ (recommended = [] → out1 = [none_line])
    ∧ length out2 = bucket_chunks consider
    ∧ (consider = [] → out2 = [none_line])
    ∧ length out3 = error_chunks errors.
Proof. apply report_run. Qed.

(** *** The command *)

Lemma on_world_run {A} (m : Eff World A) w fs res w' :
  m w = (res, w') → on_world m (mkMachine w fs) = (res, mkMachine w' fs).
Proof. intros H. unfold on_world. simpl. by rewrite H. Qed.

Lemma on_disk_run {A} (m : Eff FileSystem A) w fs res fs' :
  m fs = (res, fs') →
  on_disk m (mkMachine w fs) = (res, mkMachine w fs').
Proof. intros H. unfold on_disk. simpl. by rewrite H. Qed.

Lemma rule_is_on :
  truthy (dict_get ({[ "use_static_list" := PBool true ]} : gmap string PyVal)
            "use_static_list") = true.
Proof. unfold dict_get. by rewrite lookup_singleton_eq. Qed.

Lemma get_static_stocks_fails fs :
  files fs !! static_stocks_txt = None
  ∨ files fs !! static_stocks_txt = Some Unreadable →
  ∃ e, get_static_stocks fs = (Raise e, log_open static_stocks_txt fs)
       ∧ (exn_class e = FileNotFoundError ∨ exn_class e = PermissionError).
Proof.
  intros [H|H]; unfold get_static_stocks.
  - destruct (open_read_missing _ _ H) as (e & Hopen & He).
    exists e. rewrite (bind_raise _ _ _ _ _ Hopen). auto.
  - destruct (open_read_unreadable _ _ H) as (e & Hopen & He).
    exists e. rewrite (bind_raise _ _ _ _ _ Hopen). auto.
Qed.

(** The command up to the filter, when the resolver found entries. *)
Lemma command_found date w fs found :
  (resolve date w).1 = Return found →
  found ≠ [] →
  ∃ w2,
    scorer_calls w2 = scorer_calls w
    ∧ command date (mkMachine w fs)
      = bind (on_disk (filter_stocks found
                         (Some {[ "use_static_list" := PBool true ]})))
          (λ earnings_tickers,
             bind (on_world
                     (print (String.append nl
                        (String.append "Found "
                           (String.append (pretty (length earnings_tickers))
                              " stocks with earnings")))))
               (λ _,
                  bind (on_world (analyze earnings_tickers))
                    (λ lists,
                       on_world (report (recommended lists) (consider lists)
                                   (errors lists)))))
          (mkMachine w2 fs).
Proof.
  intros Hfound Hne.
  destruct (resolve date w) as [res w1] eqn:Hres. simpl in Hfound. subst res.
  pose proof (resolve_frame strptime_Ymd strftime_bdY get_earnings_by_date
                date w) as (_ & _ & Hcalls & _).
  rewrite Hres in Hcalls. simpl in Hcalls.
  unfold main.
  rewrite (bind_run _ _ _ _ _ (on_world_run _ _ fs _ _ Hres)).
  destruct found as [|t0 found']; [done |].
  rewrite (bind_run _ _ _ _ _ (on_world_run _ _ fs _ _ (print_write _ w1))).
  eexists. split; [| reflexivity]. done.
Qed.

(** X22. When the resolver finds nothing (a date that does not parse, a
    day without earnings, a calendar that fails), the command ends there:
    it returns, the allow-list file is not opened, the scorer is not
    called and nothing is slept. *)
Theorem command_ends_when_nothing_found date w fs :
  (get_earnings_for_date strptime_Ymd strftime_bdY get_earnings_by_date
     date w).1 = Return [] →
  ∃ w',
    main strptime_Ymd strftime_bdY compute_recommendation
      get_earnings_by_date py_format date (mkMachine w fs)
    = (Return tt, mkMachine w' fs)
    ∧ scorer_calls w' = scorer_calls w
    ∧ slept w' = slept w.
Proof.
  intros Hfound.
  destruct (resolve date w) as [res w1] eqn:Hres. simpl in Hfound. subst res.
  pose proof (resolve_frame strptime_Ymd strftime_bdY get_earnings_by_date
                date w) as (_ & _ & Hcalls & Hslept & _).
  rewrite Hres in Hcalls, Hslept. simpl in Hcalls, Hslept.
  exists w1. unfold main.
  by rewrite (bind_run _ _ _ _ _ (on_world_run _ _ fs _ _ Hres)).
Qed.

(** X23. When the resolver found entries and the allow-list file is
    missing or cannot be read, the command raises the failure of [open]:
    the file was asked for once, the scorer was never called, and no
    report is written. *)
Theorem command_needs_the_allow_list date w fs found :
  (resolve date w).1 = Return found →
  found ≠ [] →
  files fs !! static_stocks_txt = None
  ∨ files fs !! static_stocks_txt = Some Unreadable →
  ∃ e w',
    command date (mkMachine w fs)
    = (Raise e, mkMachine w' (log_open static_stocks_txt fs))
    ∧ (exn_class e = FileNotFoundError ∨ exn_class e = PermissionError)
    ∧ scorer_calls w' = scorer_calls w.
Proof.
  intros Hfound Hne Hfile.
  destruct (command_found date w fs found Hfound Hne) as (w2 & Hcalls & ->).
  destruct (get_static_stocks_fails fs Hfile) as (e & Hload & He).
  exists e, w2.
  rewrite (bind_raise _ _ _ (mkMachine w2 (log_open static_stocks_txt fs)) e);
    [done |].
  apply on_disk_run. rewrite filter_stocks_run. simpl.
  by rewrite rule_is_on, Hload.
Qed.

(** X24. The command scores the listed entries only: when the resolver
    found entries and the allow-list file can be read, the symbols passed
    to the scorer are, in order, symbols of found entries that are on the
    loaded list; all of them when the command returns.  An entry that is
    not on the list never reaches the scorer. *)
Theorem command_scores_listed_only date w fs found content :
  (resolve date w).1 = Return found →
  found ≠ [] →
  files fs !! static_stocks_txt = Some (Readable content) →
  drop (length (scorer_calls w))
    (scorer_calls (m_world (command date (mkMachine w fs)).2))
  `prefix_of` symbol
              <$> filter (λ t, symbol t ∈ strip <$> readlines content) found
  ∧ ((command date (mkMachine w fs)).1 = Return tt →
     drop (length (scorer_calls w))
       (scorer_calls (m_world (command date (mkMachine w fs)).2))
     = symbol <$> filter (λ t, symbol t ∈ strip <$> readlines content) found).
Proof.
  intros Hfound Hne Hfile.
  destruct (command_found date w fs found Hfound Hne) as (w2 & Hcalls & ->).
  set (kept := filter (λ t, symbol t ∈ strip <$> readlines content) found).
  assert (on_disk (World := World)
            (filter_stocks found
               (Some {[ "use_static_list" := PBool true ]}))
            (mkMachine w2 fs)
          = (Return kept, mkMachine w2 (log_open static_stocks_txt fs)))
    as Hfilter.
  { apply on_disk_run. rewrite filter_stocks_run. simpl.
    by rewrite rule_is_on, (get_static_stocks_readable _ _ Hfile). }
  rewrite (bind_run _ _ _ _ _ Hfilter).
  rewrite (bind_run _ _ _ _ _ (on_world_run _ _ _ _ _ (print_write _ w2))).
  set (w3 := write _ w2).
  destruct (calls_during_prefix compute_recommendation kept w3)
    as [Hpre Hall].
  unfold calls_during in Hpre, Hall.
  assert (scorer_calls w3 = scorer_calls w) as Hw3 by done.
  rewrite Hw3 in Hpre, Hall.
  destruct (analyze kept w3) as [[lists|e] w4] eqn:Hrun; simpl in Hpre, Hall.
  - rewrite (bind_run _ _ _ _ _ (on_world_run _ _ _ _ _ Hrun)).
    destruct (report_lines_run (recommended lists) (consider lists)
                (errors lists) w4) as (out & Hreport).
    rewrite (on_world_run _ _ _ _ _ Hreport). simpl.
    split; [done |]. intros _. by apply (Hall lists).
  - rewrite (bind_raise _ _ _ _ _ (on_world_run _ _ _ _ _ Hrun)). simpl.
    split; [done |]. done.
Qed.

End pipeline_properties.

(** ** Further runs on the sample data *)

Section further_sample_runs.

Import utils earnings_scanner pipeline samples.

Lemma calendar_rows_become_entries_witness :
  ∃ w',
    get_earnings_for_date strptime_Ymd strftime_bdY calendar
      (Some "2025-07-24") world0
    = (Return (row_entry <$> df_rows known_table), w')
    ∧ row_entry <$> df_rows known_table ≠ []
    ∧ length (row_entry <$> df_rows known_table)
      = length (df_rows known_table)
    ∧ stdout w'
      = (stdout world0
         ++ [String.append
               (String.append "Fetching earnings for "
                  (String.append (strftime_bdY known_day) "...")) nl;
             String.append
               (String.append "Successfully found "
                  (String.append (pretty (length (df_rows known_table)))
                     (String.append " earnings reports for "
                        (strftime_bdY known_day)))) nl])%list.
Proof.
  apply (calendar_rows_become_entries strptime_Ymd strftime_bdY calendar
           (Some "2025-07-24") world0 known_day known_table 1);
    vm_compute; reflexivity.
Defined.

Lemma empty_table_yields_nothing_witness :
  ∃ w',
    get_earnings_for_date strptime_Ymd strftime_bdY bare_calendar None world0
    = (Return [], w')
    ∧ stdout w'
      = (stdout world0
         ++ [String.append
               (String.append "Fetching earnings for "
                  (String.append (strftime_bdY known_day) "...")) nl;
             String.append
               (String.append nl
                  (String.append "No earnings data found for "
                     (strftime_bdY known_day))) nl;
             String.append "This could be because:" nl;
             String.append "1. The market is closed on this date" nl;
             String.append "2. Earnings data isn't yet available" nl;
             String.append "3. The date is too far in future" nl])%list.
Proof.
  apply (empty_table_yields_nothing strptime_Ymd strftime_bdY bare_calendar
           None world0 known_day bare_table 1);
    [vm_compute; reflexivity | vm_compute; reflexivity | right; reflexivity].
Defined.

Lemma calendar_failure_yields_nothing_witness :
  ∃ w',
    get_earnings_for_date strptime_Ymd strftime_bdY broken_calendar
      (Some "2025-07-24") world0 = (Return [], w')
    ∧ calendar_queries w' = (calendar_queries world0 ++ [known_day])%list
    ∧ stdout w'
      = (stdout world0
         ++ [String.append
               (String.append nl
                  (String.append "Error fetching earnings data: "
                     "connection refused")) nl])%list.
Proof.
  apply (calendar_failure_yields_nothing strptime_Ymd strftime_bdY
           broken_calendar (Some "2025-07-24") world0 known_day
           (mkExn RuntimeError "connection refused") 1);
    vm_compute; reflexivity.
Defined.

(** The sample parser fails with [ValueError] only. *)
Lemma sample_parser_fails_with_ValueError s e :
  strptime_Ymd s = Raise e → is_ValueError e = true.
Proof.
  unfold strptime_Ymd. repeat case_match; by intros [= <-].
Qed.

Lemma resolver_raises_no_failure_witness :
  match (get_earnings_for_date strptime_Ymd strftime_bdY broken_calendar
           (Some "2025-07-24") world0).1 with
  | Return _ => True
  | Raise e => is_Exception e = false
  end.
Proof.
  apply (resolver_raises_no_failure strptime_Ymd strftime_bdY broken_calendar
           (Some "2025-07-24") world0).
  exact sample_parser_fails_with_ValueError.
Defined.

Lemma analyzer_sleeps_after_each_return_witness :
  slept (analyze_earnings_plays scorer batch world0).2
  = slept world0
    + sum_list (sleep_after
                <$> scorer_outcomes scorer (symbol <$> batch)
                      (scorer_state world0))
  ∧ (slept (analyze_earnings_plays scorer batch world0).2
     ≤ slept world0 + length batch)%nat.
Proof.
  apply (analyzer_sleeps_after_each_return scorer batch world0 batch_result).
  vm_compute. reflexivity.
Defined.

Lemma analyzer_reports_progress_witness :
  stdout (analyze_earnings_plays scorer batch world0).2
  = (stdout world0
     ++ ((λ p, progress_chunk (length batch) p.1 p.2)
         <$> zip (seq 1 (length batch)) batch)
     ++ [String.append nl nl])%list.
Proof.
  apply (analyzer_reports_progress scorer batch world0 batch_result).
  vm_compute. reflexivity.
Defined.

Lemma missing_key_is_reported_witness :
  ∃ present k1 rest,
    required_keys = (present ++ k1 :: rest)%list
    ∧ Forall (λ k0, is_Some (nomove_dict !! k0)) present
    ∧ nomove_dict !! k1 = None
    ∧ ∃ lists',
        (analyze_step loose_scorer 1 no_results (1, entry "NOMOVE") world0).1
        = Return lists'
        ∧ recommended lists' = []
        ∧ consider lists' = []
        ∧ avoid lists' = []
        ∧ errors lists'
          = [("NOMOVE", String.append "'" (String.append k1 "'"))].
Proof.
  apply (missing_key_is_reported loose_scorer 1 no_results 1 (entry "NOMOVE")
           world0 nomove_dict 1 "expected_move").
  - vm_compute. reflexivity.
  - unfold required_keys. repeat constructor.
  - vm_compute. reflexivity.
Defined.

Lemma classification_by_truth_value_witness :
  ∃ lists',
    (analyze_step loose_scorer 1 no_results (1, entry "NUM") world0).1
    = Return lists'
    ∧ recommended lists' = []
    ∧ consider lists'
      = [mkCategorized "NUM" (PStr "time-after-hours") PNone "Consider"]
    ∧ avoid lists' = []
    ∧ errors lists' = [].
Proof.
  apply (classification_by_truth_value loose_scorer 1 no_results 1
           (entry "NUM") world0 loose_dict 1
           (PInt 1) (PStr "") (PStr "yes") PNone);
    vm_compute; reflexivity.
Defined.

Lemma interrupt_stops_the_run_witness :
  (analyze_earnings_plays loose_scorer
     [entry "AAPL"; entry "STOP"; entry "MSFT"] world0).1
  = Raise (mkExn KeyboardInterrupt "")
  ∧ calls_during loose_scorer [entry "AAPL"; entry "STOP"; entry "MSFT"] world0
    = ["AAPL"; "STOP"].
Proof.
  apply (interrupt_stops_the_run loose_scorer [entry "AAPL"] (entry "STOP")
           [entry "MSFT"] world0
           [Return (signals true true true (PStr "5.2%"))]
           [Return (signals true false true (PStr "3.1%"))]
           (mkExn KeyboardInterrupt ""));
    try (vm_compute; reflexivity).
  by repeat constructor.
Defined.

Lemma buckets_carry_their_label_witness :
  Forall (labelled "Recommended") (recommended batch_result)
  ∧ Forall (labelled "Consider") (consider batch_result)
  ∧ Forall (labelled "Avoid") (avoid batch_result).
Proof.
  apply (buckets_carry_their_label scorer batch world0 batch_result).
  vm_compute. reflexivity.
Defined.

Lemma buckets_keep_batch_order_witness :
  entry_of <$> recommended batch_result `sublist_of` batch
  ∧ entry_of <$> consider batch_result `sublist_of` batch
  ∧ entry_of <$> avoid batch_result `sublist_of` batch
  ∧ (errors batch_result).*1 `sublist_of` symbol <$> batch.
Proof.
  apply (buckets_keep_batch_order scorer batch world0 batch_result).
  vm_compute. reflexivity.
Defined.

Lemma lists_account_for_the_batch_witness :
  total_items batch_result
  = sum_list (lists_gain
              <$> scorer_outcomes scorer (symbol <$> batch)
                    (scorer_state world0))
  ∧ (total_items batch_result ≤ length batch)%nat.
Proof.
  apply (lists_account_for_the_batch scorer batch world0 batch_result).
  vm_compute. reflexivity.
Defined.

Lemma analyze_concatenation_witness :
  (analyze_earnings_plays scorer
     ([entry "AAPL"; entry "BAD"] ++ [entry "MSFT"])%list world0).1
  = match (analyze_earnings_plays scorer [entry "MSFT"]
             (analyze_earnings_plays scorer [entry "AAPL"; entry "BAD"]
                world0).2).1 with
    | Return r2 =>
        Return (merge (mkRun [scored "AAPL" "5.2%" "Recommended"] [] []
                         [("BAD", "no price data for BAD")]) r2)
    | Raise e => Raise e
    end.
Proof.
  apply (analyze_concatenation scorer [entry "AAPL"; entry "BAD"]
           [entry "MSFT"] world0).
  vm_compute. reflexivity.
Defined.

Lemma filter_rule_by_truth_value_witness :
  filter_stocks candidates (Some static_list_on_by_text) disk
  = (Return [entry "AAPL"; entry "MSFT"; entry ""],
     mkFS (files disk) [static_stocks_txt])
  ∧ filter_stocks candidates (Some (static_list_by (PInt 1))) disk
    = (Return [entry "AAPL"; entry "MSFT"; entry ""],
       mkFS (files disk) [static_stocks_txt])
  ∧ filter_stocks candidates (Some (static_list_by (PInt 0))) empty_disk
    = (Return candidates, empty_disk)
  ∧ filter_stocks candidates (Some (static_list_by (PStr ""))) empty_disk
    = (Return candidates, empty_disk)
  ∧ filter_stocks candidates (Some (static_list_by PNone)) locked_disk
    = (Return candidates, locked_disk).
Proof.
  split_and!.
  - apply (proj2 (filter_rule_by_truth_value candidates static_list_on_by_text
                    disk (PStr "false") eq_refl)
             eq_refl ["AAPL"; "MSFT"; ""; "TSLA"]).
    vm_compute. reflexivity.
  - apply (proj2 (filter_rule_by_truth_value candidates
                    (static_list_by (PInt 1)) disk (PInt 1) eq_refl)
             eq_refl ["AAPL"; "MSFT"; ""; "TSLA"]).
    vm_compute. reflexivity.
  - apply (proj1 (filter_rule_by_truth_value candidates
                    (static_list_by (PInt 0)) empty_disk (PInt 0) eq_refl)
             eq_refl).
  - apply (proj1 (filter_rule_by_truth_value candidates
                    (static_list_by (PStr "")) empty_disk (PStr "") eq_refl)
             eq_refl).
  - apply (proj1 (filter_rule_by_truth_value candidates
                    (static_list_by PNone) locked_disk PNone eq_refl)
             eq_refl).
Defined.

Lemma allow_list_opened_once_witness :
  open_log (filter_stocks candidates (Some static_list_on) empty_disk).2
  = (open_log empty_disk ++ [static_stocks_txt])%list
  ∧ files (filter_stocks candidates (Some static_list_on) empty_disk).2
    = files empty_disk.
Proof.
  apply (allow_list_opened_once candidates static_list_on empty_disk).
  vm_compute. reflexivity.
Defined.

Lemma filter_stocks_idempotent_witness :
  ∃ kept fs1,
    filter_stocks candidates (Some static_list_on) disk = (Return kept, fs1)
    ∧ (filter_stocks kept (Some static_list_on) fs1).1 = Return kept.
Proof.
  apply (filter_stocks_idempotent candidates static_list_on disk
           allow_list_text); vm_compute; reflexivity.
Defined.

Lemma filter_stocks_concatenation_witness :
  (filter_stocks ([entry "AAPL"; entry "XYZ"] ++ [entry "MSFT"])%list
     (Some static_list_on) disk).1
  = Return ([entry "AAPL"] ++ [entry "MSFT"])%list.
Proof.
  apply (filter_stocks_concatenation [entry "AAPL"; entry "XYZ"]
           [entry "MSFT"] (Some static_list_on) disk);
    vm_compute; reflexivity.
Defined.

Lemma loaded_symbols_are_clean_witness :
  ∃ allow fs',
    get_static_stocks disk = (Return allow, fs')
    ∧ length allow = length (readlines allow_list_text)
    ∧ Forall (λ s, trimmed s ∧ has_char LF s = false
                   ∧ has_char CR s = false) allow
    ∧ ∀ tickers rules kept t,
        truthy (dict_get rules "use_static_list") = true →
        (filter_stocks tickers (Some rules) disk).1 = Return kept →
        t ∈ kept →
        trimmed (symbol t) ∧ has_char LF (symbol t) = false
        ∧ has_char CR (symbol t) = false.
Proof.
  apply (loaded_symbols_are_clean allow_list_text disk).
  vm_compute. reflexivity.
Defined.

Lemma empty_allow_list_keeps_nothing_witness :
  (filter_stocks candidates (Some static_list_on) blank_disk).1 = Return [].
Proof.
  apply (empty_allow_list_keeps_nothing candidates static_list_on blank_disk);
    vm_compute; reflexivity.
Defined.

Lemma command_ends_when_nothing_found_witness :
  ∃ w',
    main strptime_Ymd strftime_bdY scorer calendar py_format
      (Some "07/24/2025") machine0
    = (Return tt, mkMachine w' disk)
    ∧ scorer_calls w' = scorer_calls world0
    ∧ slept w' = slept world0.
Proof.
  apply (command_ends_when_nothing_found strptime_Ymd strftime_bdY scorer
           calendar py_format (Some "07/24/2025") world0 disk).
  vm_compute. reflexivity.
Defined.

Lemma command_needs_the_allow_list_witness :
  ∃ e w',
    main strptime_Ymd strftime_bdY scorer calendar py_format
      (Some "2025-07-24") machine_without_list
    = (Raise e, mkMachine w' (log_open static_stocks_txt empty_disk))
    ∧ (exn_class e = FileNotFoundError ∨ exn_class e = PermissionError)
    ∧ scorer_calls w' = scorer_calls world0.
Proof.
  apply (command_needs_the_allow_list strptime_Ymd strftime_bdY scorer
           calendar py_format (Some "2025-07-24") world0 empty_disk
           (row_entry <$> df_rows known_table)).
  - vm_compute. reflexivity.
  - done.
  - left. vm_compute. reflexivity.
Defined.

Lemma command_scores_listed_only_witness :
  drop (length (scorer_calls world0))
    (scorer_calls
       (m_world (main strptime_Ymd strftime_bdY scorer calendar py_format
                   (Some "2025-07-24") machine0).2))
  `prefix_of` symbol
              <$> filter (λ t, symbol t ∈ strip <$> readlines allow_list_text)
                    (row_entry <$> df_rows known_table)
  ∧ ((main strptime_Ymd strftime_bdY scorer calendar py_format
        (Some "2025-07-24") machine0).1 = Return tt →
     drop (length (scorer_calls world0))
       (scorer_calls
          (m_world (main strptime_Ymd strftime_bdY scorer calendar py_format
                      (Some "2025-07-24") machine0).2))
     = symbol
       <$> filter (λ t, symbol t ∈ strip <$> readlines allow_list_text)
             (row_entry <$> df_rows known_table)).
Proof.
  apply (command_scores_listed_only strptime_Ymd strftime_bdY scorer calendar
           py_format (Some "2025-07-24") world0 disk
           (row_entry <$> df_rows known_table) allow_list_text).
  - vm_compute. reflexivity.
  - done.
  - vm_compute. reflexivity.
Defined.

(** The command on the sample day: it returns, AAPL is the one symbol
    scored (XYZ is not on the list), and the list file was opened once. *)
Example command_sample :
  (main strptime_Ymd strftime_bdY scorer calendar py_format
     (Some "2025-07-24") machine0).1 = Return tt
  ∧ scorer_calls
      (m_world (main strptime_Ymd strftime_bdY scorer calendar py_format
                  (Some "2025-07-24") machine0).2) = ["AAPL"]
  ∧ open_log
      (m_disk (main strptime_Ymd strftime_bdY scorer calendar py_format
                 (Some "2025-07-24") machine0).2) = [static_stocks_txt].
Proof. vm_compute. done. Qed.

End further_sample_runs.
